(** * hw1-q2: regression models trained by online gradient descent

    A shallow embedding of [code/hw1-q2.py]: the closed-form ridge solver
    [solve_analytically], the shared base class [_RegressionModel]
    ([train_epoch], [evaluate]), the two models [LinearRegression] and
    [NeuralRegression], the plots and [main].

    NumPy arrays are lists (1-D) and lists of rows (2-D).  A data matrix
    is given by its rows, so of a data matrix without rows the number of
    columns is not represented (it reads as 0); the 2-D arrays the network
    builds and keeps carry their number of columns ([array2]), because a
    network without hidden units has arrays without rows.  Shape checks
    and broadcasting are part of the operations, which raise Python
    exceptions as NumPy does.

    The element type is a parameter of the development ([Scalar]), and so
    are the sums of products that [np.dot] and [np.matmul] hand to a BLAS
    library ([Blas]): NumPy fixes neither the order of the additions nor
    whether a product is rounded before it is added.  Two arithmetics are
    given, IEEE-754 binary64, which is what NumPy computes with, and the
    exact rationals, in which the algebraic identities hold that floating
    point only approximates; and one BLAS, the reference implementation,
    which rounds every product and adds from left to right. *)

From Stdlib Require Import List Arith ZArith Bool Lia Permutation.
From Stdlib Require Import QArith Qcanon Field.
From Stdlib Require Import SpecFloat.
Import ListNotations.
Local Open Scope nat_scope.

Set Implicit Arguments.

(** ** Exceptions, fallible results, methods on a mutable object *)

Inductive exn : Type :=
| ValueError     (* shapes not aligned / not broadcastable *)
| IndexError     (* index out of bounds *)
| LinAlgError.   (* singular matrix *)

Inductive result (A : Type) : Type :=
| Ok (a : A)
| Raise (e : exn).

Arguments Ok {A} a.
Arguments Raise {A} e.

Definition bindR {A B : Type} (r : result A) (k : A -> result B) : result B :=
  match r with
  | Ok a => k a
  | Raise e => Raise e
  end.

(** A method of an object with state [S]: it returns or raises, and in
    both cases leaves the object in some state (in-place mutation survives
    an exception). *)
Definition method (S A : Type) : Type := S -> result A * S.

Definition ret {S A : Type} (a : A) : method S A := fun s => (Ok a, s).

Definition bindM {S A B : Type} (m : method S A) (k : A -> method S B)
  : method S B :=
  fun s => match m s with
           | (Ok a, s') => k a s'
           | (Raise e, s') => (Raise e, s')
           end.

Definition lift {S A : Type} (r : result A) : method S A := fun s => (r, s).
Definition get {S : Type} : method S S := fun s => (Ok s, s).
Definition put {S : Type} (s' : S) : method S unit := fun _ => (Ok tt, s').

Declare Scope py_scope.
Delimit Scope py_scope with py.
Notation "x <- c ;; k" := (bindR c (fun x => k))
  (at level 61, c at next level, right associativity) : py_scope.
Notation "x <~ c ;; k" := (bindM c (fun x => k))
  (at level 61, c at next level, right associativity) : py_scope.
Notation "c ;;; k" := (bindM c (fun _ => k))
  (at level 61, right associativity) : py_scope.
Local Open Scope py_scope.

(** ** Scalars *)

(** The float operations the program uses.  [fgtb a b] is [a > b],
    [fneb a b] is [a != b], [of_nat] converts a Python int, and the two
    literals are [0.0001] and [0.001]. *)
Class Scalar (F : Type) : Type := {
  fzero : F;
  fone : F;
  fadd : F -> F -> F;
  fsub : F -> F -> F;
  fmul : F -> F -> F;
  fdiv : F -> F -> F;
  fopp : F -> F;
  fmaximum : F -> F -> F;
  fgtb : F -> F -> bool;
  fneb : F -> F -> bool;
  of_nat : nat -> F;
  lit_0_0001 : F;
  lit_0_001 : F
}.

Class Sqrt (F : Type) : Type := { fsqrt : F -> F }.

(** 1-D and 2-D arrays of floats. *)
Abbreviation vec F := (list F) (only parsing).
Abbreviation mat F := (list (list F)) (only parsing).

(** ** Sums of products *)

(** What the BLAS library behind [np.dot] and [np.matmul] returns on
    arrays whose shapes agree: [fdot] for two 1-D arrays, [gemv] for a 2-D
    and a 1-D array, [gemm] for two 2-D arrays.  The shapes are checked
    by NumPy before the library is called (see [np.dot], [np.dot_mv],
    [np.matmul] below). *)
Class Blas (F : Type) : Type := {
  fdot : vec F -> vec F -> F;
  gemv : mat F -> vec F -> vec F;
  gemm : mat F -> mat F -> mat F
}.

(** ** The NumPy operations the program calls *)

Definition map2 {A B C : Type} (f : A -> B -> C) (a : list A) (b : list B)
  : list C :=
  map (fun p => f (fst p) (snd p)) (combine a b).

Fixpoint mapR {A B : Type} (f : A -> result B) (l : list A)
  : result (list B) :=
  match l with
  | [] => Ok []
  | a :: l' => b <- f a ;; bs <- mapR f l' ;; Ok (b :: bs)
  end.

Module np.
Section Ops.
Context {F : Type} `{Scalar F} `{Blas F}.

Definition shape0 (M : mat F) : nat := length M.
Definition shape1 (M : mat F) : nat :=
  match M with
  | [] => 0
  | r :: _ => length r
  end.

(** Broadcasting of one axis: equal extents, or one of them is 1. *)
Definition bshape (a b : nat) : result nat :=
  if a =? b then Ok a
  else if a =? 1 then Ok b
  else if b =? 1 then Ok a
  else Raise ValueError.

Definition stretch {A : Type} (n : nat) (l : list A) : list A :=
  match l with
  | [a] => repeat a n
  | _ => l
  end.

(** [a op b] on 1-D arrays. *)
Definition elementwise (op : F -> F -> F) (a b : vec F) : result (vec F) :=
  n <- bshape (length a) (length b) ;;
  Ok (map2 op (stretch n a) (stretch n b)).

(** [A op B] on 2-D arrays. *)
Definition elementwise2 (op : F -> F -> F) (A B : mat F) : result (mat F) :=
  r <- bshape (shape0 A) (shape0 B) ;;
  c <- bshape (shape1 A) (shape1 B) ;;
  Ok (map2 (fun ra rb => map2 op (stretch c ra) (stretch c rb))
           (stretch r A) (stretch r B)).

Definition add (a b : vec F) : result (vec F) := elementwise fadd a b.
Definition subtract (a b : vec F) : result (vec F) := elementwise fsub a b.
Definition multiply (a b : vec F) : result (vec F) := elementwise fmul a b.
Definition add2 (A B : mat F) : result (mat F) := elementwise2 fadd A B.

(** [a -= b]: the result must have the shape of [a]. *)
Definition isub (a b : vec F) : result (vec F) :=
  n <- bshape (length a) (length b) ;;
  if n =? length a then Ok (map2 fsub a (stretch n b))
  else Raise ValueError.

(** Array and scalar. *)
Definition subtract_s (a : vec F) (c : F) : vec F := map (fun x => fsub x c) a.
Definition multiply_s (a : vec F) (c : F) : vec F := map (fun x => fmul x c) a.
Definition scale (c : F) (a : vec F) : vec F := map (fmul c) a.
Definition scale2 (c : F) (A : mat F) : mat F := map (scale c) A.
Definition multiply2_s (A : mat F) (c : F) : mat F :=
  map (fun r => multiply_s r c) A.
Definition negative (a : vec F) : vec F := map fopp a.
Definition maximum_s (a : vec F) (c : F) : vec F :=
  map (fun x => fmaximum x c) a.
Definition greater_s (a : vec F) (c : F) : list bool :=
  map (fun x => fgtb x c) a.

(** [1 * b] for a boolean array [b], then used as a float factor. *)
Definition of_bool (b : bool) : F := if b then fone else fzero.
Definition int_of_bools (b : list bool) : vec F := map of_bool b.

Definition zeros (n : nat) : vec F := repeat fzero n.

Definition identity (n : nat) : mat F :=
  map (fun i => map (fun j => if i =? j then fone else fzero) (seq 0 n))
      (seq 0 n).

Definition column (j : nat) (M : mat F) : vec F :=
  map (fun r => nth j r fzero) M.

Definition transpose (M : mat F) : mat F :=
  map (fun j => column j M) (seq 0 (shape1 M)).

(** A vector as a one-column matrix. *)
Definition as_column (a : vec F) : mat F := map (fun x => [x]) a.

(** [np.dot] of two 1-D arrays. *)
Definition dot (a b : vec F) : result F :=
  if length a =? length b then Ok (fdot a b) else Raise ValueError.

(** [np.dot] of a 1-D array and a scalar. *)
Definition dot_s (a : vec F) (c : F) : vec F := multiply_s a c.

(** [np.dot] and [np.matmul] of a 2-D and a 1-D array: every row must
    have the length of the vector. *)
Definition dot_mv (M : mat F) (v : vec F) : result (vec F) :=
  if forallb (fun r => length r =? length v) M then Ok (gemv M v)
  else Raise ValueError.

(** [np.dot] and [np.matmul] of two 2-D arrays. *)
Definition matmul (A B : mat F) : result (mat F) :=
  if shape1 A =? shape0 B then Ok (gemm A B) else Raise ValueError.

(** [a[order]]: indexing with an array of indices. *)
Definition take {A : Type} (a : list A) (order : list nat)
  : result (list A) :=
  mapR (fun i => match nth_error a i with
                 | Some x => Ok x
                 | None => Raise IndexError
                 end) order.

(** [a[0]] *)
Definition item0 (a : vec F) : result F :=
  match a with
  | x :: _ => Ok x
  | [] => Raise IndexError
  end.

(** [a[-1]] *)
Definition item_last {A : Type} (a : list A) : result A :=
  match rev a with
  | x :: _ => Ok x
  | [] => Raise IndexError
  end.

(** [np.arange(1, n + 1)] and [np.arange(0, stop, step=10)]. *)
Definition arange_from_1 (n : nat) : list nat := seq 1 n.
Definition arange_by_10 (stop : nat) : list nat :=
  map (fun k => 10 * k) (seq 0 ((stop + 9) / 10)).

(** *** 2-D arrays with their shape

    The shape of the array is ([length (rows A)], [cols A]); every row
    has [cols A] entries. *)
Record array2 : Type := { cols : nat; rows : mat F }.

(** [a[:, None]] *)
Definition newaxis (a : vec F) : array2 :=
  {| cols := 1; rows := as_column a |}.

(** [A.T] *)
Definition T (A : array2) : array2 :=
  {| cols := length (rows A);
     rows := map (fun j => column j (rows A)) (seq 0 (cols A)) |}.

(** [np.dot(A, v)] and [A.dot(v)] for a 1-D [v]. *)
Definition dot_av (A : array2) (v : vec F) : result (vec F) :=
  if cols A =? length v then Ok (gemv (rows A) v) else Raise ValueError.

(** [A.dot(B)] *)
Definition dot_aa (A B : array2) : result array2 :=
  if cols A =? length (rows B)
  then Ok {| cols := cols B; rows := gemm (rows A) (rows B) |}
  else Raise ValueError.

(** [c * A] *)
Definition scale_a (c : F) (A : array2) : array2 :=
  {| cols := cols A; rows := scale2 c (rows A) |}.

(** [A -= B]: the result must have the shape of [A]. *)
Definition isub_a (A B : array2) : result array2 :=
  r <- bshape (length (rows A)) (length (rows B)) ;;
  c <- bshape (cols A) (cols B) ;;
  if (r =? length (rows A)) && (c =? cols A)
  then Ok {| cols := cols A;
             rows := map2 (fun ra rb => map2 fsub ra (stretch c rb))
                          (rows A) (stretch r (rows B)) |}
  else Raise ValueError.
End Ops.
Arguments array2 : clear implicits.
End np.

Import np.

(** ** The reference BLAS *)

Section ReferenceBlas.
Context {F : Type} `{Scalar F}.

(** Sum of a sequence, accumulated from left to right from its first
    entry (a sum of one term is that term). *)
Definition fsum (l : vec F) : F :=
  match l with
  | [] => fzero
  | p :: ps => fold_left fadd ps p
  end.

(** Sum of products of two sequences of one length. *)
Definition inner (a b : vec F) : F := fsum (map2 fmul a b).

(** [M v]: every row against the vector. *)
Definition matvec (M : mat F) (v : vec F) : vec F :=
  map (fun r => inner r v) M.

(** [A B]: every row of [A] against every column of [B]. *)
Definition product (A B : mat F) : mat F :=
  map (fun r => map (fun j => inner r (column j B)) (seq 0 (shape1 B))) A.
End ReferenceBlas.

(** Every product is rounded, and the products are added in the order
    of the index.  In exact arithmetic every BLAS returns these values;
    in binary64 an optimised library may return others (it may add in
    another order, or fuse a product with an addition).  This is the BLAS
    of a statement that names none. *)
#[export] Instance reference_blas {F : Type} `{Scalar F} : Blas F :=
  {| fdot := inner; gemv := matvec; gemm := product |}.

(** What the statements below assume of a BLAS: a matrix-vector product
    has one entry per row of the matrix, and where every sum has a single
    term (a one-column matrix against a one-entry vector or a one-row
    matrix) the result is that product. *)
Class BlasLaws (F : Type) `{Scalar F} `{Blas F} : Prop := {
  gemv_length : forall (M : mat F) (v : vec F),
      length (gemv M v) = length M;
  gemv_column : forall (r : vec F) (g : F),
      gemv (as_column r) [g] = map (fun a => fmul a g) r;
  gemm_column_row : forall (u v : vec F),
      gemm (as_column u) [v] = map (fun a => map (fun b => fmul a b) v) u
}.

Arguments BlasLaws F {_ _}.

(** ** [solve_analytically] *)

Section Solver.
Context {F : Type} `{Scalar F} `{Blas F}.

(** [np.linalg.inv], from the library. *)
Variable inv : mat F -> result (mat F).

Definition solve_analytically (X : mat F) (y : vec F) : result (vec F) :=
  let xt := transpose X in
  let regulization :=
    multiply2_s (identity (Nat.min (shape0 X) (shape1 X))) lit_0_0001 in
  xtx <- matmul xt X ;;
  a <- add2 xtx regulization ;;
  a_inv <- inv a ;;
  m <- matmul a_inv xt ;;
  dot_mv m y.
End Solver.

(** ** [_RegressionModel]: what the two models share *)

(** The methods a subclass provides. *)
Class RegressionModel (F S : Type) : Type := {
  update_weight : vec F -> F -> F -> method S unit;
  predict : mat F -> method S (vec F)
}.

Section Base.
Context {F : Type} `{Scalar F} `{Sqrt F} `{Blas F}.
Context {S : Type} `{RegressionModel F S}.

(** [for x_i, y_i in zip(X, y): self.update_weight(x_i, y_i, **kwargs)] *)
Fixpoint train_epoch (X : mat F) (y : vec F) (learning_rate : F)
  : method S unit :=
  match X, y with
  | x_i :: X', y_i :: y' =>
      update_weight x_i y_i learning_rate ;;;
      train_epoch X' y' learning_rate
  | _, _ => ret tt
  end.

Definition evaluate (X : mat F) (y : vec F) : method S F :=
  yhat <~ predict X ;;
  error <~ lift (subtract yhat y) ;;
  squared_error <~ lift (dot error error) ;;
  let mean_squared_error := fdiv squared_error (of_nat (length y)) in
  ret (fsqrt mean_squared_error).

(** The training loop of [main].  [orders] holds the draws of
    [np.random.permutation(train_X.shape[0])], one per epoch; the losses
    of every epoch are returned.  Printing and the distance to the
    analytic solution only read the model and are left out here (see
    [linear_training_loop] for the loop with the distance). *)
Fixpoint training_loop (orders : list (list nat)) (train_X : mat F)
  (train_y : vec F) (test_X : mat F) (test_y : vec F) (learning_rate : F)
  : method S (list F * list F) :=
  match orders with
  | [] => ret ([], [])
  | train_order :: epochs =>
      train_X' <~ lift (take train_X train_order) ;;
      train_y' <~ lift (take train_y train_order) ;;
      train_epoch train_X' train_y' learning_rate ;;;
      train_loss <~ evaluate train_X' train_y' ;;
      test_loss <~ evaluate test_X test_y ;;
      losses <~ training_loop epochs train_X' train_y' test_X test_y
                  learning_rate ;;
      ret (train_loss :: fst losses, test_loss :: snd losses)
  end.
End Base.

(** [distance]: the Euclidean norm of the difference, which
    [np.linalg.norm] computes as the root of [x.dot(x)]. *)
Definition distance {F : Type} `{Scalar F} `{Sqrt F} `{Blas F}
  (analytic_solution model_params : vec F) : result F :=
  d <- subtract analytic_solution model_params ;;
  sqnorm <- dot d d ;;
  Ok (fsqrt sqnorm).

(** ** [LinearRegression] *)

Module LinearRegression.
Section Def.
Context {F : Type} `{Scalar F} `{Blas F}.

Record t : Type := { w : vec F }.

Definition init (n_features : nat) : t := {| w := zeros n_features |}.

(** [np.dot(X, self.w)] for a single example [X] (from [update_weight]). *)
Definition predict_row (x : vec F) : method t F :=
  fun self => (dot x (w self), self).

(** [np.dot(X, self.w)] for a matrix of examples (from [evaluate]). *)
Definition predict (X : mat F) : method t (vec F) :=
  fun self => (dot_mv X (w self), self).

(** [learning_rate] is always passed by [train_epoch]; its default is
    [lit_0_001]. *)
Definition update_weight (x_i : vec F) (y_i : F) (learning_rate : F)
  : method t unit :=
  y_hat <~ predict_row x_i ;;
  if fneb y_hat y_i then
    let dL := dot_s (negative x_i) (fsub y_i y_hat) in
    self <~ get ;;
    w' <~ lift (isub (w self) (scale learning_rate dL)) ;;
    put {| w := w' |}
  else ret tt.
End Def.
Arguments t : clear implicits.
End LinearRegression.

#[export] Instance LinearRegression_model {F : Type} `{Scalar F} `{Blas F}
  : RegressionModel F (LinearRegression.t F) :=
  {| update_weight := LinearRegression.update_weight;
     predict := LinearRegression.predict |}.

(** ** [NeuralRegression] *)

Module NeuralRegression.
Section Def.
Context {F : Type} `{Scalar F} `{Blas F}.

(** [w1_array] and [w2_array] are [self.w1] and [self.w2]. *)
Record t : Type := {
  w1_array : array2 F;
  w2_array : array2 F;
  b1 : vec F;
  b2 : vec F
}.

(** The rows of the two weight matrices. *)
Definition w1 (self : t) : mat F := rows (w1_array self).
Definition w2 (self : t) : mat F := rows (w2_array self).

(** [w1_0] and [w2_0] are the draws of [np.random.normal], of shapes
    (hidden, n_features) and (1, hidden). *)
Definition init (n_features hidden : nat) (w1_0 w2_0 : mat F) : t :=
  {| w1_array := {| cols := n_features; rows := w1_0 |};
     w2_array := {| cols := hidden; rows := w2_0 |};
     b1 := zeros hidden;
     b2 := zeros 1 |}.

(** The shapes [__init__] builds: (hidden, n_features), (1, hidden),
    (hidden) and (1). *)
Definition shaped (hidden n_features : nat) (self : t) : Prop :=
  cols (w1_array self) = n_features /\
  length (w1 self) = hidden /\
  Forall (fun r => length r = n_features) (w1 self) /\
  cols (w2_array self) = hidden /\
  length (w2 self) = 1 /\
  Forall (fun r => length r = hidden) (w2 self) /\
  length (b1 self) = hidden /\
  length (b2 self) = 1.

Definition set_w1 (self : t) (a : array2 F) : t :=
  {| w1_array := a; w2_array := w2_array self;
     b1 := b1 self; b2 := b2 self |}.
Definition set_b1 (self : t) (a : vec F) : t :=
  {| w1_array := w1_array self; w2_array := w2_array self;
     b1 := a; b2 := b2 self |}.
Definition set_w2 (self : t) (a : array2 F) : t :=
  {| w1_array := w1_array self; w2_array := a;
     b1 := b1 self; b2 := b2 self |}.
Definition set_b2 (self : t) (a : vec F) : t :=
  {| w1_array := w1_array self; w2_array := w2_array self;
     b1 := b1 self; b2 := a |}.

(** [self.a -= v] for each of the four parameters. *)
Definition isub_w1 (v : array2 F) : method t unit :=
  fun self => match isub_a (w1_array self) v with
              | Ok a => (Ok tt, set_w1 self a)
              | Raise e => (Raise e, self)
              end.
Definition isub_b1 (v : vec F) : method t unit :=
  fun self => match isub (b1 self) v with
              | Ok a => (Ok tt, set_b1 self a)
              | Raise e => (Raise e, self)
              end.
Definition isub_w2 (v : array2 F) : method t unit :=
  fun self => match isub_a (w2_array self) v with
              | Ok a => (Ok tt, set_w2 self a)
              | Raise e => (Raise e, self)
              end.
Definition isub_b2 (v : vec F) : method t unit :=
  fun self => match isub (b2 self) v with
              | Ok a => (Ok tt, set_b2 self a)
              | Raise e => (Raise e, self)
              end.

Definition update_weight (x_i : vec F) (y_i : F) (learning_rate : F)
  : method t unit :=
  self <~ get ;;
  z1 <~ lift (a <- dot_av (w1_array self) x_i ;; add a (b1 self)) ;;
  let h1 := maximum_s z1 fzero in
  z2 <~ lift (a <- dot_av (w2_array self) h1 ;; add a (b2 self)) ;;
  let h2 := maximum_s z2 fzero in
  let grad_z2 := subtract_s h2 y_i in
  grad_W2 <~ lift (dot_aa (newaxis grad_z2) (T (newaxis h1))) ;;
  let grad_b2 := grad_z2 in
  grad_h1 <~ lift (dot_av (T (w2_array self)) grad_z2) ;;
  grad_z1 <~ lift (multiply grad_h1 (int_of_bools (greater_s h1 fzero))) ;;
  grad_W1 <~ lift (dot_aa (newaxis grad_z1) (T (newaxis x_i))) ;;
  let grad_b1 := grad_z1 in
  isub_w1 (scale_a learning_rate grad_W1) ;;;
  isub_b1 (scale learning_rate grad_b1) ;;;
  isub_w2 (scale_a learning_rate grad_W2) ;;;
  isub_b2 (scale learning_rate grad_b2).

(** The body of the loop of [predict] for one row. *)
Definition predict_row (self : t) (x_i : vec F) : result F :=
  a <- dot_av (w1_array self) x_i ;;
  z1 <- add a (b1 self) ;;
  let h1 := maximum_s z1 fzero in
  a <- dot_av (w2_array self) h1 ;;
  z2 <- add a (b2 self) ;;
  item0 z2.

Fixpoint predict_loop (self : t) (X : mat F) (Y_hat : vec F) : result (vec F) :=
  match X with
  | [] => Ok Y_hat
  | x_i :: X' =>
      z <- predict_row self x_i ;;
      predict_loop self X' (Y_hat ++ [z])
  end.

Definition predict (X : mat F) : method t (vec F) :=
  fun self => (predict_loop self X [], self).
End Def.
Arguments t : clear implicits.
End NeuralRegression.

#[export] Instance NeuralRegression_model {F : Type} `{Scalar F} `{Blas F}
  : RegressionModel F (NeuralRegression.t F) :=
  {| update_weight := NeuralRegression.update_weight;
     predict := NeuralRegression.predict |}.

(** ** The two scalar types *)

(** IEEE-754 binary64 ([np.float64]), from the executable specification
    of the Standard Library. *)
Module Binary64.
Definition prec : Z := 53.
Definition emax : Z := 1024.

Definition of_Z (z : Z) : spec_float := binary_normalize prec emax z 0 false.

(** [np.maximum]: a NaN operand is returned, else the larger one. *)
Definition maximum (a b : spec_float) : spec_float :=
  match a with
  | S754_nan => a
  | _ => if SFltb b a then a else b
  end.

Definition one : spec_float := Eval vm_compute in of_Z 1.

(** The literals [0.0001] and [0.001]: the doubles nearest to 1/10000
    and 1/1000. *)
Definition lit_0_0001 : spec_float :=
  Eval vm_compute in SFdiv prec emax (of_Z 1) (of_Z 10000).
Definition lit_0_001 : spec_float :=
  Eval vm_compute in SFdiv prec emax (of_Z 1) (of_Z 1000).

(** The fused multiply-add [a * b + c], rounded once. *)
Definition fma (a b c : spec_float) : spec_float :=
  match a, b, c with
  | S754_finite sa ma ea, S754_finite sb mb eb, S754_finite sc mc ec =>
      let e := Z.min (ea + eb) ec in
      let p := ((if xorb sa sb then Z.neg (ma * mb) else Z.pos (ma * mb))
                * 2 ^ (ea + eb - e))%Z in
      let q := ((if sc then Z.neg mc else Z.pos mc) * 2 ^ (ec - e))%Z in
      binary_normalize prec emax (p + q) e false
  | S754_finite _ _ _, S754_finite _ _ _, S754_infinity _ => c
  | _, _, _ => SFadd prec emax (SFmul prec emax a b) c
  end.

Definition is_finite (x : spec_float) : bool :=
  match x with
  | S754_zero _ | S754_finite _ _ _ => true
  | S754_infinity _ | S754_nan => false
  end.

Definition is_neg_zero (x : spec_float) : bool :=
  match x with
  | S754_zero true => true
  | _ => false
  end.
End Binary64.

#[export] Instance binary64 : Scalar spec_float :=
  {| fzero := S754_zero false;
     fone := Binary64.one;
     fadd := SFadd Binary64.prec Binary64.emax;
     fsub := SFsub Binary64.prec Binary64.emax;
     fmul := SFmul Binary64.prec Binary64.emax;
     fdiv := SFdiv Binary64.prec Binary64.emax;
     fopp := SFopp;
     fmaximum := Binary64.maximum;
     fgtb := fun a b => SFltb b a;
     fneb := fun a b => negb (SFeqb a b);
     of_nat := fun n => Binary64.of_Z (Z.of_nat n);
     lit_0_0001 := Binary64.lit_0_0001;
     lit_0_001 := Binary64.lit_0_001 |}.

#[export] Instance binary64_sqrt : Sqrt spec_float :=
  {| fsqrt := SFsqrt Binary64.prec Binary64.emax |}.

(** Another BLAS for binary64, which fuses: every product is added to
    the running sum without being rounded first, starting from +0, as
    optimised libraries do on processors with a fused multiply-add. *)
Definition fused_dot (a b : vec spec_float) : spec_float :=
  fold_left (fun acc p => Binary64.fma (fst p) (snd p) acc) (combine a b)
            (S754_zero false).

Definition fused_blas : Blas spec_float :=
  {| fdot := fused_dot;
     gemv := fun M v => map (fun r => fused_dot r v) M;
     gemm := fun A B =>
               map (fun r => map (fun j => fused_dot r (column j B))
                                 (seq 0 (shape1 B))) A |}.

(** Exact rational arithmetic. *)
#[export] Instance exact : Scalar Qc :=
  {| fzero := Q2Qc 0;
     fone := Q2Qc 1;
     fadd := Qcplus;
     fsub := Qcminus;
     fmul := Qcmult;
     fdiv := Qcdiv;
     fopp := Qcopp;
     fmaximum := fun a b => match Qccompare a b with Gt => a | _ => b end;
     fgtb := fun a b => match Qccompare a b with Gt => true | _ => false end;
     fneb := fun a b => negb (Qc_eq_bool a b);
     of_nat := fun n => Q2Qc (inject_Z (Z.of_nat n));
     lit_0_0001 := Q2Qc (1 # 10000);
     lit_0_001 := Q2Qc (1 # 1000) |}%Qc.

(** ** Observing what a training run feeds to the model *)

(** A model that does nothing but record, in order, the examples its
    [update_weight] receives.  [train_epoch] and the training loop are
    written against the two methods only, so run on this model they show
    which examples they hand over, and in which order. *)
Module Recorder.
Section Def.
Context {F : Type} `{Scalar F}.

Definition t : Type := list (vec F * F).

Definition update_weight (x_i : vec F) (y_i : F) (learning_rate : F)
  : method t unit :=
  fun log => (Ok tt, log ++ [(x_i, y_i)]).

Definition predict (X : mat F) : method t (vec F) :=
  fun log => (Ok (map (fun _ => fzero) X), log).
End Def.
Arguments t : clear implicits.
End Recorder.

#[export] Instance Recorder_model {F : Type} `{Scalar F}
  : RegressionModel F (Recorder.t F) :=
  {| update_weight := Recorder.update_weight;
     predict := Recorder.predict |}.

(** ** Reference formulations the code is compared with *)

Section Reference.
Context {F : Type} `{Scalar F} `{Sqrt F} `{Blas F}.
Context {S : Type} `{RegressionModel F S}.

(** One step of the left fold of [update_weight] over examples: once an
    update has raised, the exception and the state it left stand. *)
Definition fold_step (learning_rate : F) (acc : result unit * S)
  (example : vec F * F) : result unit * S :=
  match fst acc with
  | Ok _ => update_weight (fst example) (snd example) learning_rate
              (snd acc)
  | Raise _ => acc
  end.

Definition fold_updates (learning_rate : F) (examples : list (vec F * F))
  (s : S) : result unit * S :=
  fold_left (fold_step learning_rate) examples (Ok tt, s).

(** The root of the mean of the squared differences of [yhat] and [y]
    (of one length): the squares are summed by the BLAS, as the product
    of the vector of differences with itself. *)
Definition rmse (yhat y : vec F) : F :=
  let e := map2 fsub yhat y in
  fsqrt (fdiv (fdot e e) (of_nat (length e))).

(** [evaluate] returns [loss] and leaves the model as it was, and so
    does a second call right after it. *)
Definition evaluates_to (X : mat F) (y : vec F) (s : S) (loss : F) : Prop :=
  evaluate X y s = (Ok loss, s) /\
  (a <~ evaluate X y ;; b <~ evaluate X y ;; ret (a, b)) s =
    (Ok (loss, loss), s).
End Reference.

(** The network of [NeuralRegression] in mathematical notation: the
    forward pass, the gradients of backpropagation and the descent step. *)
Section NeuralReference.
Context {F : Type} `{Scalar F} `{Blas F}.

Definition relu (v : vec F) : vec F := map (fun x => fmaximum x fzero) v.

(** [W x + b] *)
Definition affine (W : mat F) (b x : vec F) : vec F :=
  map2 fadd (gemv W x) b.

(** [r . v] for a row [r] of a matrix: the entry of the product of the
    one-row matrix with [v]. *)
Definition row_product (r v : vec F) : F := hd fzero (gemv [r] v).

(** The outer product of two vectors. *)
Definition outer (u v : vec F) : mat F :=
  map (fun a => map (fun b => fmul a b) v) u.

(** A gradient entry multiplied with the indicator of an active hidden
    unit. *)
Definition masked (g h : F) : F :=
  fmul g (if fgtb h fzero then fone else fzero).

Record gradients : Type := {
  grad_W1 : mat F;
  grad_b1 : vec F;
  grad_W2 : mat F;
  grad_b2 : vec F
}.

(** For a network with the single output row [r2] and output bias [c2]. *)
Definition backprop (W1 : mat F) (b1 r2 : vec F) (c2 : F) (x_i : vec F)
  (y_i : F) : gradients :=
  let z1 := affine W1 b1 x_i in
  let h1 := relu z1 in
  let z2 := fadd (row_product r2 h1) c2 in
  let h2 := fmaximum z2 fzero in
  let grad_z2 := fsub h2 y_i in
  let grad_h1 := map (fun w => fmul w grad_z2) r2 in
  let grad_z1 := map2 masked grad_h1 h1 in
  {| grad_W1 := outer grad_z1 x_i;
     grad_b1 := grad_z1;
     grad_W2 := outer [grad_z2] h1;
     grad_b2 := [grad_z2] |}.

(** [p - learning_rate * g], entry by entry. *)
Definition descend (learning_rate : F) (p g : vec F) : vec F :=
  map2 (fun p_j g_j => fsub p_j (fmul learning_rate g_j)) p g.

Definition descend2 (learning_rate : F) (P G : mat F) : mat F :=
  map2 (descend learning_rate) P G.

(** The parameters after the descent step; the shapes stay. *)
Definition sgd_step (learning_rate : F) (self : NeuralRegression.t F)
  (g : gradients) : NeuralRegression.t F :=
  {| NeuralRegression.w1_array :=
       {| cols := cols (NeuralRegression.w1_array self);
          rows := descend2 learning_rate (NeuralRegression.w1 self)
                    (grad_W1 g) |};
     NeuralRegression.b1 :=
       descend learning_rate (NeuralRegression.b1 self) (grad_b1 g);
     NeuralRegression.w2_array :=
       {| cols := cols (NeuralRegression.w2_array self);
          rows := descend2 learning_rate (NeuralRegression.w2 self)
                    (grad_W2 g) |};
     NeuralRegression.b2 :=
       descend learning_rate (NeuralRegression.b2 self) (grad_b2 g) |}.
End NeuralReference.

(** ** The normal equations, in exact arithmetic *)

(** The laws of exact arithmetic that the statement about
    [solve_analytically] rests on.  The rationals satisfy them; binary64
    does not (its sums and products round). *)
Class ExactRing (F : Type) `{Scalar F} : Prop := {
  fadd_comm : forall a b : F, fadd a b = fadd b a;
  fadd_assoc : forall a b c : F, fadd a (fadd b c) = fadd (fadd a b) c;
  fadd_zero_l : forall a : F, fadd fzero a = a;
  fmul_zero_l : forall a : F, fmul fzero a = fzero;
  fmul_zero_r : forall a : F, fmul a fzero = fzero;
  fmul_one_l : forall a : F, fmul fone a = a;
  fmul_assoc : forall a b c : F, fmul a (fmul b c) = fmul (fmul a b) c;
  fmul_add_distr_l :
    forall a b c : F, fmul a (fadd b c) = fadd (fmul a b) (fmul a c);
  fmul_add_distr_r :
    forall a b c : F, fmul (fadd a b) c = fadd (fmul a c) (fmul b c)
}.

Arguments ExactRing F {_}.

Section NormalEquations.
Context {F : Type} `{Scalar F}.

(** An n x n matrix. *)
Definition square (n : nat) (A : mat F) : Prop :=
  length A = n /\ Forall (fun r => length r = n) A.

(** What [np.linalg.inv] is in exact arithmetic: when it returns, it
    returns a right inverse of the same shape. *)
Definition exact_inverse (inv : mat F -> result (mat F)) : Prop :=
  forall (n : nat) (A B : mat F),
    square n A -> inv A = Ok B ->
    square n B /\ matmul A B = Ok (identity n).

(** The combination of the rows of [B] (of length [c]) with the
    coefficients [a]. *)
Definition combination (c : nat) (a : vec F) (B : mat F) : vec F :=
  fold_right (fun p acc => map2 fadd (scale (fst p) (snd p)) acc)
             (zeros c) (combine a B).

(** The identity of size [k] in the top left corner of a [d] x [d]
    matrix of zeros. *)
Definition embedded_identity (k d : nat) : mat F :=
  map (fun i => map (fun j => if (i =? j) && (i <? k) then fone else fzero)
                    (seq 0 d))
      (seq 0 d).

(** [X^T X + lambda E], entry by entry, for a [d] x [d] matrix [E] and
    [X] with [d] columns. *)
Definition regularized_gram (d : nat) (X : mat F) (lambda : F) (E : mat F)
  : mat F :=
  map (fun i =>
         map (fun j =>
                fadd (inner (column i X) (column j X))
                     (fmul (nth j (nth i E []) fzero) lambda))
             (seq 0 d))
      (seq 0 d).

(** [X^T y] *)
Definition moment (d : nat) (X : mat F) (y : vec F) : vec F :=
  map (fun j => inner (column j X) y) (seq 0 d).

(** [w] solves (X^T X + lambda E) w = X^T y. *)
Definition solves_normal_equations (d : nat) (X : mat F) (y : vec F)
  (E : mat F) (w : vec F) : Prop :=
  matvec (regularized_gram d X lit_0_0001 E) w = moment d X y.
End NormalEquations.

(** The exact inverse of the rational matrices of size 1 and 2 (all that
    the examples below invert). *)
Definition inv2 (A : mat Qc) : result (mat Qc) :=
  match A with
  | [[a]] =>
      if Qc_eq_bool a (Q2Qc 0) then Raise LinAlgError
      else Ok [[Qcinv a]]
  | [[a; b]; [c; d]] =>
      let det := Qcminus (Qcmult a d) (Qcmult b c) in
      if Qc_eq_bool det (Q2Qc 0) then Raise LinAlgError
      else Ok [[Qcdiv d det; Qcdiv (Qcopp b) det];
               [Qcdiv (Qcopp c) det; Qcdiv a det]]
  | _ => Raise LinAlgError
  end.

(** Small rational data. *)
Module Ridge.
Definition q (z : Z) : Qc := Q2Qc (inject_Z z).

(** One point with two features. *)
Definition X12 : mat Qc := [[q 1; q 2]].
Definition y1 : vec Qc := [q 1].

(** Two points with three features. *)
Definition X23 : mat Qc := [[q 1; q 2; q 3]; [q 4; q 5; q 6]].
Definition y2 : vec Qc := [q 1; q 2].

(** Three points with two features. *)
Definition X32 : mat Qc := [[q 1; q 1]; [q 1; q 2]; [q 1; q 3]].
Definition y3 : vec Qc := [q 2; q 4; q 6].
End Ridge.

(** Repeated epochs: the state after calling [train_epoch] on each data
    set in turn (whether or not a call raised, the object is left in the
    state the call reached). *)
Definition run_epochs {F S : Type} `{Scalar F} `{RegressionModel F S}
  (learning_rate : F) (epochs : list (mat F * vec F)) (s : S) : S :=
  fold_left (fun s' d => snd (train_epoch (fst d) (snd d) learning_rate s'))
            epochs s.

(** Conditions on binary64 values of a network: gradients without
    infinities and NaNs, parameters without a negative zero. *)
Module Finite.
Definition vector (v : vec spec_float) : bool :=
  forallb Binary64.is_finite v.

Definition matrix (M : mat spec_float) : bool := forallb vector M.

Definition gradient (g : gradients (F := spec_float)) : bool :=
  matrix (grad_W1 g) && vector (grad_b1 g) &&
  matrix (grad_W2 g) && vector (grad_b2 g).

Definition plain (v : vec spec_float) : bool :=
  forallb (fun x => negb (Binary64.is_neg_zero x)) v.

Definition no_negative_zero (self : NeuralRegression.t spec_float) : bool :=
  forallb plain (NeuralRegression.w1 self) &&
  plain (NeuralRegression.b1 self) &&
  forallb plain (NeuralRegression.w2 self) &&
  plain (NeuralRegression.b2 self).

(** The gradients [update_weight] computes for an example. *)
Definition gradients_of {HB : Blas spec_float}
  (self : NeuralRegression.t spec_float)
  (x_i : vec spec_float) (y_i : spec_float) : gradients :=
  backprop (NeuralRegression.w1 self) (NeuralRegression.b1 self)
           (hd [] (NeuralRegression.w2 self))
           (hd fzero (NeuralRegression.b2 self)) x_i y_i.
End Finite.

(** A run on which a zero learning rate does not keep the parameters: one
    hidden unit, weights 0.125, one example with the feature 2^1000. *)
Module Overflow.
Definition pow2 (e : Z) : spec_float :=
  S754_finite false 4503599627370496 (e - 52).

Definition model : NeuralRegression.t spec_float :=
  NeuralRegression.init 1 1 [[pow2 (-3)]] [[pow2 (-3)]].

Definition X : mat spec_float := [[pow2 1000]].
Definition y : vec spec_float := [S754_zero false].
End Overflow.

(** Small binary64 data: linear models with two features, networks with
    one and with two hidden units, and a few examples.  The entries are
    small integers, whose sums and products binary64 represents exactly,
    in whatever order they are added. *)
Module Example.
Definition f (z : Z) : spec_float := Binary64.of_Z z.

Definition linear : LinearRegression.t spec_float :=
  LinearRegression.init 2.

(** The weights (1, 1). *)
Definition ones : LinearRegression.t spec_float :=
  {| LinearRegression.w := [f 1; f 1] |}.

Definition network : NeuralRegression.t spec_float :=
  NeuralRegression.init 1 1 [[Overflow.pow2 (-3)]] [[Overflow.pow2 (-3)]].

(** Two features and two hidden units, with the hidden weights
    ((1, 1), (-1, 0)) and the output weights (1, -2): on the example
    (1, 2) the first unit is active and the second is not. *)
Definition two_units : NeuralRegression.t spec_float :=
  NeuralRegression.init 2 2 [[f 1; f 1]; [f (-1); f 0]] [[f 1; f (-2)]].

(** Two features and no hidden unit. *)
Definition no_units : NeuralRegression.t spec_float :=
  NeuralRegression.init 2 0 [] [[]].

(** An example on which the rounding of a product decides: with
    b = 1 + 2^-30 the product b * b = 1 + 2^-29 + 2^-60 is rounded to
    1 + 2^-29, so that -1 * (1 + 2^-29) + b * b is 0 when the product is
    rounded before it is added, and 2^-60 when it is not. *)
Definition b : spec_float := fadd (f 1) (Overflow.pow2 (-30)).

Definition close : LinearRegression.t spec_float :=
  {| LinearRegression.w := [fadd (f 1) (Overflow.pow2 (-29)); b] |}.

Definition x_close : vec spec_float := [f (-1); b].

Definition X22 : mat spec_float := [[f 1; f 2]; [f 3; f 4]].
Definition y2 : vec spec_float := [f 3; f 5].

Definition X21 : mat spec_float := [[f 1024]; [f 3]].

Definition X13 : mat spec_float := [[f 1; f 2; f 3]].
Definition y1 : vec spec_float := [f 1].
End Example.

(** Small rational models: a linear model with the weights (1, 1), and a
    network with one hidden unit whose output weight is negative. *)
Module ExactExample.
Definition linear : LinearRegression.t Qc :=
  {| LinearRegression.w := [Ridge.q 1; Ridge.q 1] |}.

Definition network : NeuralRegression.t Qc :=
  NeuralRegression.init 1 1 [[Ridge.q 1]] [[Ridge.q (-1)]].
End ExactExample.

(** ** The plots *)

(** What a call of [plot] or [plot_dist_from_analytic] hands to
    matplotlib: the ticks of the x axis and the curves, each a sequence of
    x values and a sequence of y values.  Labels, the legend and the file
    name are constants of the code and are left out. *)
Record figure (F : Type) : Type := {
  xticks : list nat;
  curves : list (list nat * vec F)
}.

Section Plots.
Context {F : Type}.

(** [plt.plot(x, y)]: matplotlib raises ValueError when [x] and [y] do
    not have the same first dimension. *)
Definition plt_plot (x : list nat) (y : vec F) : result (list nat * vec F) :=
  if length x =? length y then Ok (x, y) else Raise ValueError.

Definition plot (epochs : list nat) (train_loss test_loss : vec F)
  : result (figure F) :=
  last <- item_last epochs ;;
  let ticks := arange_by_10 (last + 1) in
  train <- plt_plot epochs train_loss ;;
  test <- plt_plot epochs test_loss ;;
  Ok {| xticks := ticks; curves := [train; test] |}.

Definition plot_dist_from_analytic (epochs : list nat) (dist : vec F)
  : result (figure F) :=
  last <- item_last epochs ;;
  let ticks := arange_by_10 (last + 1) in
  curve <- plt_plot epochs dist ;;
  Ok {| xticks := ticks; curves := [curve] |}.
End Plots.

(** ** [main] *)

Section Main.
Context {F : Type} `{Scalar F} `{Sqrt F} `{Blas F}.

(** The training loop of [main] as it runs for [linear_regression]: as
    [training_loop], and after the two evaluations of every epoch the
    distance of [model.w] to the analytic solution is recorded. *)
Fixpoint linear_training_loop (analytic_solution : vec F)
  (orders : list (list nat)) (train_X : mat F) (train_y : vec F)
  (test_X : mat F) (test_y : vec F) (learning_rate : F)
  : method (LinearRegression.t F) (list F * list F * list F) :=
  match orders with
  | [] => ret ([], [], [])
  | train_order :: epochs =>
      train_X' <~ lift (take train_X train_order) ;;
      train_y' <~ lift (take train_y train_order) ;;
      train_epoch train_X' train_y' learning_rate ;;;
      train_loss <~ evaluate train_X' train_y' ;;
      test_loss <~ evaluate test_X test_y ;;
      model <~ get ;;
      dist <~ lift (distance analytic_solution (LinearRegression.w model)) ;;
      rest <~ linear_training_loop analytic_solution epochs train_X' train_y'
                test_X test_y learning_rate ;;
      ret (train_loss :: fst (fst rest), test_loss :: snd (fst rest),
           dist :: snd rest)
  end.

(** [main] for the model [linear_regression], from the loaded data on:
    the analytic solution, the model with [n_feats] zero weights, the
    loop over the epochs 1, ..., [opt.epochs] (one draw of [orders] for
    each), and the two plots, which are the result. *)
Definition main_linear_regression (inv : mat F -> result (mat F))
  (orders : list (list nat)) (train_X : mat F) (train_y : vec F)
  (test_X : mat F) (test_y : vec F) (learning_rate : F)
  : result (figure F * figure F) :=
  let n_feats := shape1 train_X in
  analytic_solution <- solve_analytically inv train_X train_y ;;
  let model := LinearRegression.init n_feats in
  let epochs := arange_from_1 (length orders) in
  series <- fst (linear_training_loop analytic_solution orders train_X
                   train_y test_X test_y learning_rate model) ;;
  let train_losses := fst (fst series) in
  let test_losses := snd (fst series) in
  let dist_opt := snd series in
  losses <- plot epochs train_losses test_losses ;;
  dists <- plot_dist_from_analytic epochs dist_opt ;;
  Ok (losses, dists).

(** [main] for the model [nn]; [w1_0] and [w2_0] are the draws of
    [NeuralRegression.__init__]. *)
Definition main_nn (w1_0 w2_0 : mat F) (hidden_size : nat)
  (orders : list (list nat)) (train_X : mat F) (train_y : vec F)
  (test_X : mat F) (test_y : vec F) (learning_rate : F)
  : result (figure F) :=
  let n_feats := shape1 train_X in
  let model := NeuralRegression.init n_feats hidden_size w1_0 w2_0 in
  let epochs := arange_from_1 (length orders) in
  series <- fst (training_loop orders train_X train_y test_X test_y
                   learning_rate model) ;;
  plot epochs (fst series) (snd series).

(** An inversion routine that returns, when it returns, a matrix of the
    shape of its argument. *)
Definition keeps_shape (inv : mat F -> result (mat F)) : Prop :=
  forall (n : nat) (A B : mat F), square n A -> inv A = Ok B -> square n B.

(** An inversion routine for the examples: the adjugate formula for
    matrices of size 1 and 2, in the arithmetic at hand. *)
Definition adjugate_inverse (A : mat F) : result (mat F) :=
  match A with
  | [[a]] =>
      if fneb a fzero then Ok [[fdiv fone a]] else Raise LinAlgError
  | [[a; b]; [c; d]] =>
      let det := fsub (fmul a d) (fmul b c) in
      if fneb det fzero
      then Ok [[fdiv d det; fdiv (fopp b) det];
               [fdiv (fopp c) det; fdiv a det]]
      else Raise LinAlgError
  | _ => Raise LinAlgError
  end.

(** Data as [utils.load_regression_data] hands them to [main]: [n] training
    rows and any number of test rows, all with [d] features, and one
    target per row. *)
Definition regression_data (n d : nat) (train_X : mat F) (train_y : vec F)
  (test_X : mat F) (test_y : vec F) : Prop :=
  length train_X = n /\ Forall (fun x_i => length x_i = d) train_X /\
  length train_y = n /\
  Forall (fun x_i => length x_i = d) test_X /\
  length test_y = length test_X.
End Main.

(** * Properties *)

Unset Implicit Arguments.


(** ** Results, broadcasting and shapes *)

Section ArrayFacts.
Context {F : Type} `{Scalar F} `{Blas F}.

Lemma map2_length {A B C : Type} (f : A -> B -> C) (a : list A)
  (b : list B) :
  length (map2 f a b) = Nat.min (length a) (length b).
Proof. unfold map2. now rewrite length_map, length_combine. Qed.

Lemma map2_cons {A B C : Type} (f : A -> B -> C) x a y b :
  map2 f (x :: a) (y :: b) = f x y :: map2 f a b.
Proof. reflexivity. Qed.

Lemma nonempty_length {A : Type} (l : list A) : 1 <= length l -> l <> [].
Proof. destruct l; simpl; [lia|congruence]. Qed.

Lemma map_over_indices {A : Type} (d : F) (f : F -> A) (v : vec F) :
  map (fun j => f (nth j v d)) (seq 0 (length v)) = map f v.
Proof.
  induction v as [|x v IH]; simpl; [reflexivity|].
  rewrite <- seq_shift, map_map. simpl. now rewrite IH.
Qed.

Lemma shape1_rows (M : mat F) (c : nat) :
  M <> [] -> Forall (fun r => length r = c) M -> shape1 M = c.
Proof.
  destruct M as [|r M]; [congruence|]. intros _ HM.
  now inversion HM.
Qed.

Lemma bshape_same (n : nat) : bshape n n = Ok n.
Proof. unfold bshape. now rewrite Nat.eqb_refl. Qed.

Lemma stretch_same {A : Type} (l : list A) : stretch (length l) l = l.
Proof. destruct l as [|a [|b l]]; reflexivity. Qed.

Lemma elementwise_same (op : F -> F -> F) (a b : vec F) :
  length a = length b -> elementwise op a b = Ok (map2 op a b).
Proof.
  intros E. unfold elementwise. rewrite E, bshape_same. simpl.
  rewrite stretch_same. rewrite <- E. now rewrite stretch_same.
Qed.

Lemma isub_same (a b : vec F) :
  length a = length b -> isub a b = Ok (map2 fsub a b).
Proof.
  intros E. unfold isub. rewrite E, bshape_same. simpl.
  rewrite Nat.eqb_refl, stretch_same. reflexivity.
Qed.

Lemma dot_same (a b : vec F) :
  length a = length b -> dot a b = Ok (fdot a b).
Proof. intros E. unfold dot. now rewrite E, Nat.eqb_refl. Qed.

Lemma dot_mismatch (a b : vec F) :
  length a <> length b -> dot a b = Raise ValueError.
Proof.
  intros E. unfold dot. apply Nat.eqb_neq in E. now rewrite E.
Qed.

Lemma dot_mv_rows (M : mat F) (v : vec F) :
  Forall (fun r => length r = length v) M ->
  dot_mv M v = Ok (gemv M v).
Proof.
  intros HM. unfold dot_mv.
  replace (forallb (fun r => length r =? length v) M) with true;
    [reflexivity|].
  symmetry. apply forallb_forall. rewrite Forall_forall in HM.
  intros r Hr. apply Nat.eqb_eq. now apply HM.
Qed.

Lemma dot_mv_mismatch (r : vec F) (M : mat F) (v : vec F) :
  length r <> length v -> dot_mv (r :: M) v = Raise ValueError.
Proof.
  intros E. unfold dot_mv. simpl. apply Nat.eqb_neq in E. now rewrite E.
Qed.
End ArrayFacts.

(** ** The reference BLAS *)

Section ReferenceFacts.
Context {F : Type} `{Scalar F}.

Lemma reference_gemv_column (r : vec F) (g : F) :
  matvec (as_column r) [g] = map (fun a => fmul a g) r.
Proof. unfold matvec, as_column. now rewrite map_map. Qed.

Lemma reference_gemm_column_row (u v : vec F) :
  product (as_column u) [v] = map (fun a => map (fun b => fmul a b) v) u.
Proof.
  unfold product, as_column. rewrite map_map. apply map_ext. intros a.
  simpl shape1. unfold column. simpl map.
  apply (map_over_indices fzero (fun b => fmul a b)).
Qed.
End ReferenceFacts.

(** The reference BLAS is one. *)
#[export] Instance reference_blas_laws {F : Type} `{Scalar F} : BlasLaws F.
Proof.
  constructor.
  - intros M v. apply length_map.
  - apply reference_gemv_column.
  - apply reference_gemm_column_row.
Qed.

(** ** [train_epoch] *)

Section EpochFacts.
Context {F : Type} `{Scalar F}.
Context {S : Type} `{RegressionModel F S}.

Lemma fold_step_raised lr (examples : list (vec F * F)) e (s : S) :
  fold_left (fold_step lr) examples (Raise e, s) = (Raise e, s).
Proof. induction examples as [|ex l IH]; simpl; auto. Qed.

Lemma train_epoch_cons x_i X y_i y lr (s : S) :
  train_epoch (x_i :: X) (y_i :: y) lr s =
  match update_weight x_i y_i lr s with
  | (Ok _, s') => train_epoch X y lr s'
  | (Raise e, s') => (Raise e, s')
  end.
Proof. reflexivity. Qed.

Lemma train_epoch_fold (X : mat F) (y : vec F) lr (s : S) :
  train_epoch X y lr s = fold_updates lr (combine X y) s.
Proof.
  revert y s. induction X as [|x_i X IH]; intros [|y_i y] s;
    try reflexivity.
  rewrite train_epoch_cons. unfold fold_updates. simpl.
  unfold fold_step at 2. simpl.
  destruct (update_weight x_i y_i lr s) as [[[]|e] s'].
  - apply IH.
  - now rewrite fold_step_raised.
Qed.

(** When no update raises, the state is the plain left fold of the
    state change of [update_weight]. *)
Lemma train_epoch_completed (X : mat F) (y : vec F) lr (s : S) :
  fst (train_epoch X y lr s) = Ok tt ->
  snd (train_epoch X y lr s) =
  fold_left (fun s' ex => snd (update_weight (fst ex) (snd ex) lr s'))
            (combine X y) s.
Proof.
  revert y s. induction X as [|x_i X IH]; intros [|y_i y] s;
    try reflexivity.
  rewrite train_epoch_cons. simpl.
  destruct (update_weight x_i y_i lr s) as [[[]|e] s']; simpl.
  - apply IH.
  - discriminate.
Qed.

Lemma train_epoch_firstn (X : mat F) (y : vec F) lr (s : S) :
  train_epoch X y lr s =
  train_epoch (firstn (Nat.min (length X) (length y)) X)
              (firstn (Nat.min (length X) (length y)) y) lr s.
Proof.
  revert y s. induction X as [|x_i X IH]; intros [|y_i y] s;
    try reflexivity.
  simpl length. simpl Nat.min. simpl firstn.
  rewrite !train_epoch_cons.
  destruct (update_weight x_i y_i lr s) as [[[]|e] s']; auto.
Qed.
End EpochFacts.

Section RecorderFacts.
Context {F : Type} `{Scalar F}.

Lemma recorder_train_epoch (X : mat F) (y : vec F) lr
  (log : Recorder.t F) :
  train_epoch X y lr log = (Ok tt, log ++ combine X y).
Proof.
  revert y log. induction X as [|x_i X IH]; intros [|y_i y] log;
    simpl combine; try (rewrite app_nil_r; reflexivity).
  rewrite train_epoch_cons. simpl. rewrite IH.
  now rewrite <- app_assoc.
Qed.
End RecorderFacts.

(** C6: [train_epoch] is the left fold of [update_weight] over the rows of
    [X] paired with the entries of [y], in order: one call per example,
    each on the state the previous call left (and nothing after a call
    that raised); run on the recording model it hands over exactly the
    paired rows, once each, in the given order. *)
Theorem train_epoch_sequential :
  forall (F S : Type) (HF : Scalar F) (HM : RegressionModel F S)
         (X : mat F) (y : vec F) (learning_rate : F) (s : S)
         (log : Recorder.t F),
    train_epoch X y learning_rate s =
      fold_updates learning_rate (combine X y) s /\
    train_epoch X y learning_rate log = (Ok tt, log ++ combine X y).
Proof.
  intros. split.
  - apply train_epoch_fold.
  - apply recorder_train_epoch.
Qed.

(** C10: with [X] and [y] of different lengths [train_epoch] behaves as on
    their first min(|X|, |y|) entries: the length mismatch raises nothing
    and exactly that many examples are handed to [update_weight]. *)
Theorem train_epoch_truncates :
  forall (F S : Type) (HF : Scalar F) (HM : RegressionModel F S)
         (X : mat F) (y : vec F) (learning_rate : F) (s : S)
         (log : Recorder.t F),
    let m := Nat.min (length X) (length y) in
    train_epoch X y learning_rate s =
      train_epoch (firstn m X) (firstn m y) learning_rate s /\
    train_epoch X y learning_rate log =
      (Ok tt, log ++ combine (firstn m X) (firstn m y)) /\
    length (combine (firstn m X) (firstn m y)) = m.
Proof.
  intros. split; [|split].
  - apply train_epoch_firstn.
  - rewrite (train_epoch_firstn (S := Recorder.t F)).
    apply recorder_train_epoch.
  - rewrite length_combine, !length_firstn. subst m. lia.
Qed.

(** ** The shuffle of the training loop *)

Section ShuffleFacts.
Context {F : Type} `{Scalar F} `{Sqrt F} `{Blas F}.

Lemma take_in_range {A : Type} (d : A) (a : list A) (order : list nat) :
  Forall (fun i => i < length a) order ->
  take a order = Ok (map (fun i => nth i a d) order).
Proof.
  unfold take. induction 1 as [|i order Hi _ IH]; simpl; [reflexivity|].
  destruct (nth_error a i) as [x|] eqn:E.
  - simpl. rewrite IH. simpl. now rewrite (nth_error_nth _ _ d E).
  - apply nth_error_None in E. lia.
Qed.

Lemma map_nth_seq {A : Type} (d : A) (a : list A) :
  map (fun i => nth i a d) (seq 0 (length a)) = a.
Proof.
  induction a as [|x a IH]; simpl; [reflexivity|].
  rewrite <- seq_shift, map_map. simpl. now rewrite IH.
Qed.

Lemma permutation_in_range (order : list nat) (n : nat) :
  Permutation order (seq 0 n) -> Forall (fun i => i < n) order.
Proof.
  intros P. apply Forall_forall. intros i Hi.
  apply (Permutation_in _ P), in_seq in Hi. lia.
Qed.

(** Indexing features and targets by one permutation of the row indices
    reorders the (feature, target) pairs and does nothing else. *)
Lemma shuffle_pairs (X : mat F) (y : vec F) (order : list nat) :
  length X = length y ->
  Permutation order (seq 0 (length X)) ->
  exists X' y',
    take X order = Ok X' /\ take y order = Ok y' /\
    length X' = length X /\ length y' = length y /\
    Permutation (combine X' y') (combine X y).
Proof.
  intros E P.
  pose proof (permutation_in_range _ _ P) as R.
  exists (map (fun i => nth i X []) order),
         (map (fun i => nth i y fzero) order).
  assert (L : length order = length X).
  { rewrite (Permutation_length P). apply length_seq. }
  repeat split.
  - now apply take_in_range.
  - apply take_in_range. now rewrite <- E.
  - now rewrite length_map.
  - rewrite length_map. congruence.
  - assert (C : combine (map (fun i => nth i X []) order)
                        (map (fun i => nth i y fzero) order) =
                map (fun i => nth i (combine X y) ([], fzero)) order).
    { clear P R L. induction order as [|i order IH]; simpl;
        [reflexivity|].
      rewrite IH. f_equal. symmetry. now apply combine_nth. }
    rewrite C. set (c := combine X y).
    assert (Q : Permutation order (seq 0 (length c))).
    { unfold c. now rewrite length_combine, <- E, Nat.min_id. }
    apply (Permutation_map (fun i => nth i c ([], fzero))) in Q.
    now rewrite map_nth_seq in Q.
Qed.

Lemma recorder_evaluate (X : mat F) (y : vec F)
  (log : Recorder.t F) :
  length X = length y ->
  exists loss, evaluate X y log = (Ok loss, log).
Proof.
  intros E. unfold evaluate, bindM, lift, ret. simpl.
  unfold Recorder.predict, subtract.
  rewrite elementwise_same by (now rewrite length_map).
  rewrite dot_same by reflexivity. eauto.
Qed.

Lemma recorder_training_loop (orders : list (list nat)) (test_X : mat F)
  (test_y : vec F) lr :
  length test_X = length test_y ->
  forall (train_X : mat F) (train_y : vec F) (X0 : mat F) (y0 : vec F)
         (log : Recorder.t F),
    length train_X = length train_y ->
    Permutation (combine train_X train_y) (combine X0 y0) ->
    Forall (fun o => Permutation o (seq 0 (length train_X))) orders ->
    exists losses consumed,
      training_loop orders train_X train_y test_X test_y lr log =
        (Ok losses, log ++ concat consumed) /\
      length consumed = length orders /\
      Forall (fun c => Permutation c (combine X0 y0)) consumed.
Proof.
  intros Et. induction orders as [|o orders IH];
    intros train_X train_y X0 y0 log E P Ho.
  - exists ([], []), []. simpl. rewrite app_nil_r. auto.
  - inversion Ho as [|? ? Po Ho']; subst.
    destruct (shuffle_pairs train_X train_y o E Po)
      as (X' & y' & TX & Ty & LX & Ly & P').
    assert (E' : length X' = length y') by congruence.
    destruct (recorder_evaluate X' y' (log ++ combine X' y') E')
      as (l1 & E1).
    destruct (recorder_evaluate test_X test_y (log ++ combine X' y') Et)
      as (l2 & E2).
    destruct (IH X' y' X0 y0 (log ++ combine X' y') E')
      as (losses & consumed & R & Lc & Pc).
    { now rewrite P'. }
    { now rewrite LX. }
    exists (l1 :: fst losses, l2 :: snd losses), (combine X' y' :: consumed).
    split; [|split].
    + simpl. unfold bindM at 1. unfold lift at 1. rewrite TX.
      unfold bindM at 1. unfold lift at 1. rewrite Ty.
      unfold bindM at 1. rewrite recorder_train_epoch.
      unfold bindM at 1. rewrite E1.
      unfold bindM at 1. rewrite E2.
      unfold bindM at 1. rewrite R.
      unfold ret. now rewrite app_assoc.
    + simpl. now rewrite Lc.
    + constructor; [now rewrite P'|exact Pc].
Qed.
End ShuffleFacts.

(** C8: in every epoch of the training loop the features and the targets
    are indexed by one and the same permutation of the row indices, so the
    examples handed to [train_epoch] in that epoch are a permutation of
    the (feature, target) pairs supplied: none dropped, duplicated or
    paired anew. *)
Theorem shuffle_preserves_examples :
  forall (F : Type) (HF : Scalar F) (HS : Sqrt F)
         (orders : list (list nat)) (train_X : mat F) (train_y : vec F)
         (test_X : mat F) (test_y : vec F) (learning_rate : F),
    length train_X = length train_y ->
    length test_X = length test_y ->
    Forall (fun o => Permutation o (seq 0 (length train_X))) orders ->
    exists losses consumed,
      training_loop (S := Recorder.t F) orders train_X train_y test_X test_y
        learning_rate [] = (Ok losses, concat consumed) /\
      length consumed = length orders /\
      Forall (fun c => Permutation c (combine train_X train_y)) consumed.
Proof.
  intros F HF HS orders train_X train_y test_X test_y lr E Et Ho.
  destruct (recorder_training_loop orders test_X test_y lr Et
              train_X train_y train_X train_y [] E (Permutation_refl _) Ho)
    as (losses & consumed & R & L & P).
  exists losses, consumed. auto.
Qed.

(** ** [LinearRegression] *)

Section LinearFacts.
Context {F : Type} `{Scalar F} `{Blas F}.

Lemma map2_map_r {A B B' C : Type} (f : A -> B -> C) (g : B' -> B)
  (a : list A) (b : list B') :
  map2 f a (map g b) = map2 (fun x y => f x (g y)) a b.
Proof.
  revert b. induction a as [|x a IH]; intros [|y b]; try reflexivity.
  simpl map. rewrite !map2_cons. now rewrite IH.
Qed.

Lemma linear_update_mismatch (self : LinearRegression.t F) x_i y_i lr :
  length x_i <> length (LinearRegression.w self) ->
  LinearRegression.update_weight x_i y_i lr self =
    (Raise ValueError, self).
Proof.
  intros E. unfold LinearRegression.update_weight, bindM,
    LinearRegression.predict_row.
  now rewrite (dot_mismatch _ _ E).
Qed.

(** The state after an update on an example of the model's dimension. *)
Lemma linear_update_value (self : LinearRegression.t F) (x_i : vec F)
  (y_i lr : F) :
  length x_i = length (LinearRegression.w self) ->
  LinearRegression.update_weight x_i y_i lr self =
    (Ok tt,
     if fneb (fdot x_i (LinearRegression.w self)) y_i
     then {| LinearRegression.w :=
               map2 (fun w_j x_ij =>
                       fsub w_j
                         (fmul lr
                            (fmul (fopp x_ij)
                               (fsub y_i
                                  (fdot x_i (LinearRegression.w self))))))
                    (LinearRegression.w self) x_i |}
     else self).
Proof.
  intros E. unfold LinearRegression.update_weight, bindM,
    LinearRegression.predict_row.
  rewrite (dot_same _ _ E).
  destruct (fneb (fdot x_i (LinearRegression.w self)) y_i); [|reflexivity].
  unfold get, lift, put, dot_s, multiply_s, negative, scale.
  rewrite isub_same by (now rewrite !length_map).
  now rewrite !map2_map_r.
Qed.
End LinearFacts.

(** C2: on an example of the model's dimension, [update_weight] of
    [LinearRegression] computes y_hat as the dot product of x_i and w
    (the sum of the products x_ij * w_j as the BLAS at hand returns it)
    and, only when [y_hat != y_i], replaces every w_j by
    w_j - learning_rate * (-x_ij * (y_i - y_hat)); otherwise w is left as
    it is.  This holds in every arithmetic and for every BLAS. *)
Theorem linear_update_rule :
  forall (F : Type) (HF : Scalar F) (HB : Blas F)
         (self : LinearRegression.t F) (x_i : vec F) (y_i learning_rate : F),
    length x_i = length (LinearRegression.w self) ->
    let y_hat := fdot x_i (LinearRegression.w self) in
    LinearRegression.update_weight x_i y_i learning_rate self =
      (Ok tt,
       if fneb y_hat y_i
       then {| LinearRegression.w :=
                 map2 (fun w_j x_ij =>
                         fsub w_j (fmul learning_rate
                                     (fmul (fopp x_ij) (fsub y_i y_hat))))
                      (LinearRegression.w self) x_i |}
       else self).
Proof.
  intros F HF HB self x_i y_i lr E y_hat.
  exact (linear_update_value self x_i y_i lr E).
Qed.

(** ** [NeuralRegression] *)

Section NeuralFacts.
Context {F : Type} `{Scalar F} `{Blas F}.

Lemma column0_as_column (v : vec F) : column 0 (as_column v) = v.
Proof.
  unfold column, as_column. rewrite map_map. simpl. apply map_id.
Qed.

(** [v[:, None].T] is the one-row matrix [v]. *)
Lemma T_newaxis (v : vec F) :
  T (newaxis v) = {| cols := length v; rows := [v] |}.
Proof.
  unfold T, newaxis. cbn [cols rows]. change (seq 0 1) with [0].
  cbn [map]. unfold as_column at 1. now rewrite length_map, column0_as_column.
Qed.

(** The transpose of a one-row matrix is the row as a column. *)
Lemma T_row (r : vec F) :
  T {| cols := length r; rows := [r] |} = newaxis r.
Proof.
  unfold T, newaxis, column, as_column. cbn [cols rows length map].
  f_equal. apply (map_over_indices fzero (fun x => [x])).
Qed.

Lemma map2_rows {A B C : Type} (f g : A -> B -> C) (P : B -> Prop)
  (a : list A) (b : list B) :
  (forall x y, P y -> f x y = g x y) -> Forall P b ->
  map2 f a b = map2 g a b.
Proof.
  intros E Hb. revert a. induction Hb as [|y b Hy _ IH]; intros [|x a];
    try reflexivity.
  rewrite !map2_cons. now rewrite IH, (E x y Hy).
Qed.

Lemma isub_a_same (A B : array2 F) :
  length (rows A) = length (rows B) -> cols A = cols B ->
  Forall (fun r => length r = cols B) (rows B) ->
  isub_a A B =
    Ok {| cols := cols A; rows := map2 (map2 fsub) (rows A) (rows B) |}.
Proof.
  intros E EC HB. unfold isub_a.
  rewrite E, bshape_same. cbn [bindR]. rewrite EC, bshape_same.
  cbn [bindR]. rewrite !Nat.eqb_refl. cbn [andb].
  rewrite stretch_same. do 2 f_equal.
  apply map2_rows with (P := fun r => length r = cols B); [|exact HB].
  intros x y Hy. rewrite <- Hy. now rewrite stretch_same.
Qed.

Lemma as_one_row (M : mat F) :
  length M = 1 -> exists r, M = [r].
Proof.
  destruct M as [|r [|r' M]]; try discriminate. eauto.
Qed.

Lemma as_one_entry (v : vec F) :
  length v = 1 -> v = [hd fzero v].
Proof.
  destruct v as [|c [|c' v]]; try discriminate. reflexivity.
Qed.

Lemma outer_rows (u v : vec F) (P : mat F) (c : nat) :
  length P = length u -> Forall (fun r => length r = c) P ->
  length v = c ->
  Forall2 (fun p g => length p = length g) P (outer u v).
Proof.
  revert u. induction P as [|p P IH]; intros [|a u]; try discriminate;
    simpl; intros L HP Lv; constructor.
  - inversion HP; subst. now rewrite length_map.
  - inversion HP; subst. apply IH; auto.
Qed.

Context `{!BlasLaws F}.

(** [u[:, None].dot(v[:, None].T)] is the outer product. *)
Lemma dot_aa_outer (u v : vec F) :
  dot_aa (newaxis u) (T (newaxis v)) =
    Ok {| cols := length v; rows := outer u v |}.
Proof.
  rewrite T_newaxis. unfold dot_aa, newaxis. cbn [cols rows length].
  cbn [Nat.eqb]. now rewrite gemm_column_row.
Qed.

Lemma dot_av_column (r : vec F) (g : F) :
  dot_av (newaxis r) [g] = Ok (map (fun w => fmul w g) r).
Proof.
  unfold dot_av, newaxis. cbn [cols rows length Nat.eqb].
  now rewrite gemv_column.
Qed.

Lemma affine_length (W : mat F) (b x : vec F) :
  length W = length b -> length (affine W b x) = length b.
Proof.
  intros E. unfold affine. rewrite map2_length, gemv_length. lia.
Qed.

(** With one row, [W x + b] has the single entry [r . x + c]. *)
Lemma affine_row (r : vec F) (c : F) (x : vec F) :
  affine [r] [c] x = [fadd (row_product r x) c].
Proof.
  unfold affine, row_product.
  rewrite (as_one_entry (gemv [r] x)) at 1 by apply gemv_length.
  reflexivity.
Qed.

Section Shaped.
Variables (hidden n_features : nat) (self : NeuralRegression.t F).
Hypothesis Hshape : NeuralRegression.shaped hidden n_features self.

Lemma forward_hidden (x_i : vec F) :
  length x_i = n_features ->
  (a <- dot_av (NeuralRegression.w1_array self) x_i ;;
   add a (NeuralRegression.b1 self)) =
  Ok (affine (NeuralRegression.w1 self) (NeuralRegression.b1 self) x_i).
Proof.
  intros Ex. destruct Hshape as (C1 & L1 & R1 & C2 & L2 & R2 & Lb1 & Lb2).
  unfold dot_av. rewrite C1, Ex, Nat.eqb_refl. cbn [bindR].
  unfold add. rewrite elementwise_same; [reflexivity|].
  rewrite gemv_length. unfold NeuralRegression.w1 in L1. congruence.
Qed.

Lemma forward_output (h1 : vec F) :
  length h1 = hidden ->
  (a <- dot_av (NeuralRegression.w2_array self) h1 ;;
   add a (NeuralRegression.b2 self)) =
  Ok (affine (NeuralRegression.w2 self) (NeuralRegression.b2 self) h1).
Proof.
  intros Eh. destruct Hshape as (C1 & L1 & R1 & C2 & L2 & R2 & Lb1 & Lb2).
  unfold dot_av. rewrite C2, Eh, Nat.eqb_refl. cbn [bindR].
  unfold add. rewrite elementwise_same; [reflexivity|].
  rewrite gemv_length. unfold NeuralRegression.w2 in L2. congruence.
Qed.

Lemma hidden_length (x_i : vec F) :
  length (relu (affine (NeuralRegression.w1 self)
                       (NeuralRegression.b1 self) x_i)) = hidden.
Proof.
  destruct Hshape as (C1 & L1 & R1 & C2 & L2 & R2 & Lb1 & Lb2).
  unfold relu. rewrite length_map, affine_length; congruence.
Qed.

Lemma output_row :
  exists r2 c2,
    NeuralRegression.w2 self = [r2] /\ NeuralRegression.b2 self = [c2] /\
    length r2 = hidden.
Proof.
  destruct Hshape as (C1 & L1 & R1 & C2 & L2 & R2 & Lb1 & Lb2).
  destruct (as_one_row _ L2) as (r2 & E2).
  destruct (NeuralRegression.b2 self) as [|c2 [|c b]] eqn:Eb;
    try discriminate.
  exists r2, c2. repeat split; auto.
  rewrite E2 in R2. now inversion R2.
Qed.
End Shaped.
End NeuralFacts.

Section NeuralMismatch.
Context {F : Type} `{Scalar F} `{Blas F}.

(** An example of another dimension is refused by the first product,
    before anything is changed. *)
Lemma neural_update_mismatch (hidden n_features : nat)
  (self : NeuralRegression.t F) (x_i : vec F) (y_i lr : F) :
  NeuralRegression.shaped hidden n_features self ->
  length x_i <> n_features ->
  NeuralRegression.update_weight x_i y_i lr self =
    (Raise ValueError, self).
Proof.
  intros (C1 & _) Ex.
  unfold NeuralRegression.update_weight, bindM, get, lift, dot_av.
  rewrite C1.
  replace (n_features =? length x_i) with false; [reflexivity|].
  symmetry. apply Nat.eqb_neq. congruence.
Qed.
End NeuralMismatch.

Section NeuralUpdate.
Context {F : Type} `{Scalar F} `{Blas F} `{!BlasLaws F}.
Variables (hidden n_features : nat) (self : NeuralRegression.t F).
Variables (r2 : vec F) (c2 : F).
Hypothesis Hshape : NeuralRegression.shaped hidden n_features self.
Hypothesis Hw2 : NeuralRegression.w2 self = [r2].
Hypothesis Hb2 : NeuralRegression.b2 self = [c2].

Lemma affine_output (h1 : vec F) :
  affine (NeuralRegression.w2 self) (NeuralRegression.b2 self) h1 =
  [fadd (row_product r2 h1) c2].
Proof. rewrite Hw2, Hb2. apply affine_row. Qed.

Lemma neural_predict_row (x_i : vec F) :
  length x_i = n_features ->
  NeuralRegression.predict_row self x_i =
    Ok (fadd (row_product r2
                (relu (affine (NeuralRegression.w1 self)
                              (NeuralRegression.b1 self) x_i))) c2).
Proof.
  intros Ex.
  transitivity
    (z1 <- (a <- dot_av (NeuralRegression.w1_array self) x_i ;;
            add a (NeuralRegression.b1 self)) ;;
     z2 <- (a <- dot_av (NeuralRegression.w2_array self)
                   (maximum_s z1 fzero) ;;
            add a (NeuralRegression.b2 self)) ;;
     item0 z2).
  { unfold NeuralRegression.predict_row.
    destruct (dot_av (NeuralRegression.w1_array self) x_i) as [a|e];
      [|reflexivity].
    cbn [bindR].
    destruct (add a (NeuralRegression.b1 self)) as [z1|e]; [|reflexivity].
    cbn [bindR].
    destruct (dot_av (NeuralRegression.w2_array self) (maximum_s z1 fzero));
      reflexivity. }
  rewrite (forward_hidden _ _ _ Hshape x_i Ex). cbn [bindR].
  change (maximum_s (affine (NeuralRegression.w1 self)
                            (NeuralRegression.b1 self) x_i) fzero)
    with (relu (affine (NeuralRegression.w1 self)
                       (NeuralRegression.b1 self) x_i)).
  rewrite (forward_output _ _ _ Hshape _ (hidden_length _ _ _ Hshape x_i)).
  cbn [bindR]. now rewrite affine_output.
Qed.

Lemma neural_update_step (x_i : vec F) (y_i lr : F) :
  length x_i = n_features ->
  NeuralRegression.update_weight x_i y_i lr self =
    (Ok tt,
     sgd_step lr self
       (backprop (NeuralRegression.w1 self) (NeuralRegression.b1 self)
                 r2 c2 x_i y_i)).
Proof.
  intros Ex.
  pose proof Hshape as (C1 & L1 & R1 & C2 & L2 & R2 & Lb1 & Lb2).
  unfold NeuralRegression.update_weight.
  unfold bindM at 1. unfold get at 1.
  unfold bindM at 1. unfold lift at 1.
  rewrite (forward_hidden _ _ _ Hshape x_i Ex).
  change (maximum_s (affine (NeuralRegression.w1 self)
                            (NeuralRegression.b1 self) x_i) fzero)
    with (relu (affine (NeuralRegression.w1 self)
                       (NeuralRegression.b1 self) x_i)).
  set (h1 := relu _).
  assert (Lh1 : length h1 = hidden) by apply (hidden_length _ _ _ Hshape).
  unfold bindM at 1. unfold lift at 1.
  rewrite (forward_output _ _ _ Hshape h1 Lh1), affine_output.
  set (z2 := fadd (row_product r2 h1) c2).
  change (maximum_s [z2] fzero) with [fmaximum z2 fzero].
  change (subtract_s [fmaximum z2 fzero] y_i)
    with [fsub (fmaximum z2 fzero) y_i].
  set (grad_z2 := fsub (fmaximum z2 fzero) y_i).
  unfold bindM at 1. unfold lift at 1.
  rewrite dot_aa_outer.
  assert (Lr2 : length r2 = hidden).
  { rewrite Hw2 in R2. now inversion R2. }
  assert (W2 : NeuralRegression.w2_array self =
               {| cols := length r2; rows := [r2] |}).
  { unfold NeuralRegression.w2 in Hw2.
    destruct (NeuralRegression.w2_array self) as [c M].
    cbn [cols rows] in *. congruence. }
  unfold bindM at 1. unfold lift at 1.
  rewrite W2, T_row, dot_av_column.
  set (grad_h1 := map (fun w => fmul w grad_z2) r2).
  assert (Lgh : length grad_h1 = hidden).
  { unfold grad_h1. now rewrite length_map. }
  unfold bindM at 1. unfold lift at 1.
  unfold multiply. rewrite elementwise_same;
    [|unfold int_of_bools, greater_s; rewrite !length_map; congruence].
  unfold int_of_bools, greater_s. rewrite map_map, map2_map_r.
  change (map2 (fun x y => fmul x (of_bool (fgtb y fzero))) grad_h1 h1)
    with (map2 masked grad_h1 h1).
  set (grad_z1 := map2 masked grad_h1 h1).
  assert (Lgz : length grad_z1 = hidden).
  { unfold grad_z1. rewrite map2_length, Lgh, Lh1. apply Nat.min_id. }
  unfold bindM at 1. unfold lift at 1.
  rewrite dot_aa_outer.
  (* the four in-place updates *)
  unfold bindM at 1. unfold NeuralRegression.isub_w1 at 1.
  rewrite isub_a_same.
  2:{ unfold scale_a, scale2, outer. cbn [rows].
      unfold NeuralRegression.w1 in L1. rewrite !length_map. congruence. }
  2:{ unfold scale_a. cbn [cols]. congruence. }
  2:{ unfold scale_a, scale2, scale, outer. cbn [cols rows].
      apply Forall_map, Forall_map, Forall_forall. intros a _.
      now rewrite !length_map. }
  unfold bindM at 1. unfold NeuralRegression.isub_b1 at 1.
  cbn [NeuralRegression.b1 NeuralRegression.set_w1].
  rewrite isub_same by (unfold scale; rewrite length_map; congruence).
  unfold bindM at 1. unfold NeuralRegression.isub_w2 at 1.
  cbn [NeuralRegression.w2_array NeuralRegression.set_w1
       NeuralRegression.set_b1].
  rewrite isub_a_same.
  2:{ rewrite W2. reflexivity. }
  2:{ unfold scale_a. cbn [cols]. congruence. }
  2:{ unfold scale_a, scale2, scale, outer. cbn [cols rows].
      repeat constructor. now rewrite !length_map. }
  unfold NeuralRegression.isub_b2.
  cbn [NeuralRegression.b2 NeuralRegression.set_w1 NeuralRegression.set_b1
       NeuralRegression.set_w2].
  rewrite isub_same by (rewrite Hb2; reflexivity).
  unfold sgd_step, backprop, NeuralRegression.set_b2,
    NeuralRegression.set_w2, NeuralRegression.set_b1,
    NeuralRegression.set_w1, scale_a.
  cbn [NeuralRegression.w1_array NeuralRegression.w2_array
       NeuralRegression.b1 NeuralRegression.b2 grad_W1 grad_b1 grad_W2
       grad_b2 cols rows].
  fold h1. fold z2. fold grad_z2. fold grad_h1. fold grad_z1.
  fold (NeuralRegression.w1 self). fold (NeuralRegression.w2 self).
  f_equal. f_equal.
  - f_equal. unfold descend2, descend, scale2, scale. rewrite map2_map_r.
    apply map2_rows with (P := fun _ => True);
      [|apply Forall_forall; auto].
    intros p g _. now rewrite map2_map_r.
  - f_equal. unfold descend2, descend, scale2, scale. rewrite map2_map_r.
    apply map2_rows with (P := fun _ => True);
      [|apply Forall_forall; auto].
    intros p g _. now rewrite map2_map_r.
  - unfold descend, scale. now rewrite map2_map_r.
  - unfold descend, scale. now rewrite map2_map_r.
Qed.
End NeuralUpdate.

(** C3: on an example of the model's dimension, [update_weight] of
    [NeuralRegression] runs the forward pass z1 = W1 x_i + b1,
    h1 = max(z1, 0), z2 = W2 h1 + b2, h2 = max(z2, 0), seeds the output
    gradient with grad_z2 = h2 - y_i (the rectified output), forms
    grad_W2 = grad_z2 (x) h1, grad_b2 = grad_z2, grad_z1 = W2^T grad_z2
    multiplied entry by entry with 1 where h1 > 0 and with 0 elsewhere,
    grad_W1 = grad_z1 (x) x_i, grad_b1 = grad_z1, and subtracts
    learning_rate times its gradient from each of W1, b1, W2 and b2.
    The products W1 x_i and W2 h1 are those of the BLAS at hand; the
    statement holds for every number of hidden units and of features,
    none included. *)
Theorem neural_update_rule :
  forall (F : Type) (HF : Scalar F) (HB : Blas F) (HL : BlasLaws F)
         (hidden n_features : nat) (self : NeuralRegression.t F)
         (r2 : vec F) (c2 : F) (x_i : vec F) (y_i learning_rate : F),
    NeuralRegression.shaped hidden n_features self ->
    NeuralRegression.w2 self = [r2] ->
    NeuralRegression.b2 self = [c2] ->
    length x_i = n_features ->
    let W1 := NeuralRegression.w1 self in
    let b1 := NeuralRegression.b1 self in
    let z1 := map2 fadd (gemv W1 x_i) b1 in
    let h1 := map (fun z => fmaximum z fzero) z1 in
    let z2 := fadd (hd fzero (gemv [r2] h1)) c2 in
    let h2 := fmaximum z2 fzero in
    let grad_z2 := fsub h2 y_i in
    let grad_W2 := [map (fun h => fmul grad_z2 h) h1] in
    let grad_b2 := [grad_z2] in
    let grad_h1 := map (fun w => fmul w grad_z2) r2 in
    let grad_z1 :=
      map2 (fun g h => fmul g (if fgtb h fzero then fone else fzero))
           grad_h1 h1 in
    let grad_W1 := map (fun g => map (fun x => fmul g x) x_i) grad_z1 in
    let grad_b1 := grad_z1 in
    let step := fun p g => fsub p (fmul learning_rate g) in
    NeuralRegression.update_weight x_i y_i learning_rate self =
      (Ok tt,
       {| NeuralRegression.w1_array :=
            {| cols := n_features; rows := map2 (map2 step) W1 grad_W1 |};
          NeuralRegression.w2_array :=
            {| cols := hidden; rows := map2 (map2 step) [r2] grad_W2 |};
          NeuralRegression.b1 := map2 step b1 grad_b1;
          NeuralRegression.b2 := map2 step [c2] grad_b2 |}).
Proof.
  intros F HF HB HL hidden n_features self r2 c2 x_i y_i lr Hs Hw2 Hb2 Ex.
  intros.
  rewrite (neural_update_step hidden n_features self r2 c2 Hs Hw2 Hb2
             x_i y_i lr Ex).
  destruct Hs as (C1 & _ & _ & C2 & _).
  unfold sgd_step, backprop. cbn [grad_W1 grad_b1 grad_W2 grad_b2].
  now rewrite Hw2, Hb2, C1, C2.
Qed.

Section NeuralPredict.
Context {F : Type} `{Scalar F} `{Blas F}.

Lemma predict_loop_rows (self : NeuralRegression.t F) (out : vec F -> F)
  (X : mat F) :
  Forall (fun x_i => NeuralRegression.predict_row self x_i = Ok (out x_i))
         X ->
  forall Y_hat,
    NeuralRegression.predict_loop self X Y_hat = Ok (Y_hat ++ map out X).
Proof.
  induction 1 as [|x_i X Hx _ IH]; intros Y_hat; simpl.
  - now rewrite app_nil_r.
  - rewrite Hx. simpl. rewrite IH. now rewrite <- app_assoc.
Qed.

Context `{!BlasLaws F}.

Lemma neural_predict_rows (hidden n_features : nat)
  (self : NeuralRegression.t F) (r2 : vec F) (c2 : F) (X : mat F) :
  NeuralRegression.shaped hidden n_features self ->
  NeuralRegression.w2 self = [r2] ->
  NeuralRegression.b2 self = [c2] ->
  Forall (fun x_i => length x_i = n_features) X ->
  NeuralRegression.predict X self =
    (Ok (map (fun x_i =>
                fadd (row_product r2
                        (relu (affine (NeuralRegression.w1 self)
                                      (NeuralRegression.b1 self) x_i)))
                     c2) X),
     self).
Proof.
  intros Hs Hw2 Hb2 HX.
  unfold NeuralRegression.predict. f_equal.
  rewrite predict_loop_rows with
    (out := fun x_i =>
              fadd (row_product r2
                      (relu (affine (NeuralRegression.w1 self)
                                    (NeuralRegression.b1 self) x_i))) c2).
  - reflexivity.
  - eapply Forall_impl; [|exact HX]. intros x_i Ex.
    now apply (neural_predict_row hidden n_features self r2 c2 Hs Hw2 Hb2).
Qed.

(** On rows of the model's dimension [predict] returns one prediction
    per row. *)
Lemma neural_predict_returns (hidden n_features : nat)
  (self : NeuralRegression.t F) (X : mat F) :
  NeuralRegression.shaped hidden n_features self ->
  Forall (fun x_i => length x_i = n_features) X ->
  exists yhat,
    NeuralRegression.predict X self = (Ok yhat, self) /\
    length yhat = length X.
Proof.
  intros Hs HX.
  destruct (output_row hidden n_features self Hs) as (r2 & c2 & E2 & Eb & _).
  eexists. split.
  - exact (neural_predict_rows hidden n_features self r2 c2 X Hs E2 Eb HX).
  - apply length_map.
Qed.
End NeuralPredict.

(** C4: [predict] of [NeuralRegression] returns, for the rows of [X] in
    order, the output pre-activation z2 = W2 max(W1 x_i + b1, 0) + b2, one
    scalar per row, with no ReLU on the returned value; the model is not
    changed.  The products W1 x_i and W2 h1 are those of the BLAS at
    hand. *)
Theorem neural_predict_preactivation :
  forall (F : Type) (HF : Scalar F) (HB : Blas F) (HL : BlasLaws F)
         (hidden n_features : nat) (self : NeuralRegression.t F)
         (r2 : vec F) (c2 : F) (X : mat F),
    NeuralRegression.shaped hidden n_features self ->
    NeuralRegression.w2 self = [r2] ->
    NeuralRegression.b2 self = [c2] ->
    Forall (fun x_i => length x_i = n_features) X ->
    NeuralRegression.predict X self =
      (Ok (map (fun x_i =>
                  let z1 := map2 fadd (gemv (NeuralRegression.w1 self) x_i)
                                 (NeuralRegression.b1 self) in
                  let h1 := map (fun z => fmaximum z fzero) z1 in
                  fadd (hd fzero (gemv [r2] h1)) c2) X),
       self).
Proof.
  intros F HF HB HL hidden n_features self r2 c2 X.
  apply neural_predict_rows.
Qed.

Section Mismatch.
Context {F : Type} `{Scalar F}.
Context {S : Type} `{RegressionModel F S}.

(** An epoch whose first update raises stops there. *)
Lemma train_epoch_first_raises (X : mat F) (y : vec F) lr (s : S) e :
  X <> [] -> y <> [] ->
  (forall x_i y_i, In x_i X -> update_weight x_i y_i lr s = (Raise e, s)) ->
  train_epoch X y lr s = (Raise e, s).
Proof.
  destruct X as [|x_i X]; [congruence|].
  destruct y as [|y_i y]; [congruence|]. intros _ _ Hu.
  rewrite train_epoch_cons, Hu; [reflexivity|now left].
Qed.
End Mismatch.

(** C9, as the code has it: when there is at least one example (a row
    and a target) and the rows of [X] do not have the dimension the
    model's parameters expect, every [update_weight] on such a row raises
    a shape error before it changes anything, and [train_epoch] stops at
    its first example with that error and the parameters as they were
    before the call; this holds for both models, for every BLAS and for
    a network of any number of hidden units. *)
Theorem dimension_mismatch_rejected :
  forall (F : Type) (HF : Scalar F) (HB : Blas F) (X : mat F) (y : vec F)
         (learning_rate : F) (d : nat),
    X <> [] -> y <> [] ->
    Forall (fun x_i => length x_i = d) X ->
    (forall self : LinearRegression.t F,
        length (LinearRegression.w self) <> d ->
        Forall (fun x_i => forall y_i,
                  LinearRegression.update_weight x_i y_i learning_rate self =
                    (Raise ValueError, self)) X /\
        train_epoch X y learning_rate self = (Raise ValueError, self)) /\
    (forall (hidden n_features : nat) (self : NeuralRegression.t F),
        NeuralRegression.shaped hidden n_features self ->
        n_features <> d ->
        Forall (fun x_i => forall y_i,
                  NeuralRegression.update_weight x_i y_i learning_rate self =
                    (Raise ValueError, self)) X /\
        train_epoch X y learning_rate self = (Raise ValueError, self)).
Proof.
  intros F HF HB X y lr d HX Hy Hrows. split.
  - intros self Hw.
    assert (U : forall x_i y_i, In x_i X ->
                LinearRegression.update_weight x_i y_i lr self =
                  (Raise ValueError, self)).
    { intros x_i y_i Hin. apply linear_update_mismatch.
      rewrite Forall_forall in Hrows. rewrite (Hrows x_i Hin). congruence. }
    split.
    + apply Forall_forall. intros x_i Hin y_i. now apply U.
    + now apply train_epoch_first_raises.
  - intros hidden n_features self Hs Hd.
    assert (U : forall x_i y_i, In x_i X ->
                NeuralRegression.update_weight x_i y_i lr self =
                  (Raise ValueError, self)).
    { intros x_i y_i Hin.
      apply (neural_update_mismatch hidden n_features self); [exact Hs|].
      rewrite Forall_forall in Hrows. rewrite (Hrows x_i Hin). congruence. }
    split.
    + apply Forall_forall. intros x_i Hin y_i. now apply U.
    + now apply train_epoch_first_raises.
Qed.

(** C9 fails as stated: rows of three features are handed to a linear
    model with two weights and to a network built for one feature, with
    no target, and [train_epoch] returns normally; nothing is compared
    with the model's shapes when there is no example to update on. *)
Lemma dimension_mismatch_unnoticed :
  Forall (fun x_i => length x_i = 3) Example.X13 /\
  length (LinearRegression.w Example.linear) = 2 /\
  NeuralRegression.shaped 1 1 Example.network /\
  train_epoch Example.X13 [] lit_0_001 Example.linear =
    (Ok tt, Example.linear) /\
  train_epoch Example.X13 [] lit_0_001 Example.network =
    (Ok tt, Example.network).
Proof.
  repeat split; repeat constructor.
Qed.

(** ** [evaluate] *)

Section EvaluateFacts.
Context {F : Type} `{Scalar F} `{Sqrt F} `{Blas F}.
Context {S : Type} `{RegressionModel F S}.

Lemma map2_diag {A C : Type} (f : A -> A -> C) (a : list A) :
  map2 f a a = map (fun x => f x x) a.
Proof.
  induction a as [|x a IH]; [reflexivity|].
  rewrite map2_cons. simpl. now rewrite IH.
Qed.

(** With a [predict] that returns [yhat] and leaves the model alone,
    [evaluate] returns the RMSE of [yhat] against [y]. *)
Lemma evaluate_from_predict (X : mat F) (y yhat : vec F) (s : S) :
  predict X s = (Ok yhat, s) ->
  length yhat = length y ->
  evaluates_to X y s (rmse yhat y).
Proof.
  intros P L.
  assert (E : evaluate X y s = (Ok (rmse yhat y), s)).
  { unfold evaluate, bindM. rewrite P. unfold lift, subtract.
    rewrite (elementwise_same _ _ _ L).
    rewrite dot_same by reflexivity. unfold ret, rmse.
    now rewrite map2_length, L, Nat.min_id. }
  split; [exact E|].
  unfold bindM. rewrite E. rewrite E. reflexivity.
Qed.
End EvaluateFacts.

Section PredictReturns.
Context {F : Type} `{Scalar F} `{Blas F} `{!BlasLaws F}.

Lemma linear_predict_rows (self : LinearRegression.t F) (X : mat F) :
  Forall (fun x_i => length x_i = length (LinearRegression.w self)) X ->
  LinearRegression.predict X self =
    (Ok (gemv X (LinearRegression.w self)), self).
Proof.
  intros HX. unfold LinearRegression.predict. now rewrite dot_mv_rows.
Qed.
End PredictReturns.

(** C5: for either model and a non-empty X with as many rows as y has
    targets (rows of the model's dimension), [predict] returns a vector
    yhat, [evaluate] returns the square root of the mean of the squared
    differences between yhat and [y] (the sum of the squares being the
    product of the vector of differences with itself, as the BLAS at hand
    returns it), leaves the model's state unchanged, and a second call
    returns the same value. *)
Theorem evaluate_rmse :
  forall (F : Type) (HF : Scalar F) (HS : Sqrt F) (HB : Blas F)
         (HL : BlasLaws F) (X : mat F) (y : vec F),
    X <> [] ->
    length X = length y ->
    (forall self : LinearRegression.t F,
        Forall (fun x_i => length x_i = length (LinearRegression.w self)) X ->
        exists yhat,
          LinearRegression.predict X self = (Ok yhat, self) /\
          evaluates_to X y self
            (fsqrt (fdiv (fdot (map2 fsub yhat y) (map2 fsub yhat y))
                         (of_nat (length y))))) /\
    (forall (hidden n_features : nat) (self : NeuralRegression.t F),
        NeuralRegression.shaped hidden n_features self ->
        Forall (fun x_i => length x_i = n_features) X ->
        exists yhat,
          NeuralRegression.predict X self = (Ok yhat, self) /\
          evaluates_to X y self
            (fsqrt (fdiv (fdot (map2 fsub yhat y) (map2 fsub yhat y))
                         (of_nat (length y))))).
Proof.
  intros F HF HS HB HL X y _ L.
  assert (R : forall yhat : vec F, length yhat = length y ->
                rmse yhat y =
                fsqrt (fdiv (fdot (map2 fsub yhat y) (map2 fsub yhat y))
                            (of_nat (length y)))).
  { intros yhat Ly. unfold rmse. cbv zeta.
    now rewrite map2_length, Ly, Nat.min_id. }
  split.
  - intros self HX.
    pose proof (linear_predict_rows self X HX) as P.
    eexists. split; [exact P|].
    rewrite <- R by (rewrite gemv_length; exact L).
    apply evaluate_from_predict; [exact P|].
    now rewrite gemv_length.
  - intros hidden n_features self Hs HX.
    destruct (neural_predict_returns hidden n_features self X Hs HX)
      as (yhat & P & Ly).
    exists yhat. split; [exact P|].
    rewrite <- R by congruence.
    apply evaluate_from_predict; [exact P|congruence].
Qed.

(** ** A zero learning rate *)

Section ZeroRate.
Local Abbreviation zero := (S754_zero false).

Lemma descend_entry_zero (p g : spec_float) :
  Binary64.is_finite g = true -> Binary64.is_neg_zero p = false ->
  fsub p (fmul zero g) = p.
Proof.
  destruct g as [sg|sg| |sg mg eg]; try discriminate; intros _;
    destruct p as [[|]|sp| |sp mp ep]; try discriminate; intros _;
    destruct sg; reflexivity.
Qed.

Lemma descend_zero (p g : vec spec_float) :
  length p = length g ->
  Finite.vector g = true -> Finite.plain p = true ->
  descend zero p g = p.
Proof.
  revert g. induction p as [|x p IH]; intros [|a g]; try discriminate;
    [reflexivity|].
  simpl. intros L Hg Hp. injection L as L.
  apply andb_prop in Hg as [Ha Hg]. apply andb_prop in Hp as [Hx Hp].
  unfold descend. rewrite map2_cons. f_equal.
  - apply (descend_entry_zero x a Ha). now apply negb_true_iff.
  - now apply IH.
Qed.

Lemma descend2_zero (P G : mat spec_float) :
  Forall2 (fun p g => length p = length g) P G ->
  Finite.matrix G = true -> forallb Finite.plain P = true ->
  descend2 zero P G = P.
Proof.
  induction 1 as [|p g P G L _ IH]; [reflexivity|].
  simpl. intros HG HP.
  apply andb_prop in HG as [Hg HG]. apply andb_prop in HP as [Hp HP].
  unfold descend2. rewrite map2_cons. f_equal.
  - now apply descend_zero.
  - now apply IH.
Qed.

Context {HB : Blas spec_float} {HL : BlasLaws spec_float}.
Variables (hidden n_features : nat).
Variable self : NeuralRegression.t spec_float.
Hypothesis Hshape : NeuralRegression.shaped hidden n_features self.
Hypothesis Hplain : Finite.no_negative_zero self = true.

Lemma zero_rate_update (x_i : vec spec_float) (y_i : spec_float) :
  (length x_i = n_features ->
   Finite.gradient (Finite.gradients_of self x_i y_i) = true) ->
  snd (NeuralRegression.update_weight x_i y_i zero self) = self.
Proof.
  intros Hfin.
  destruct (Nat.eq_dec (length x_i) n_features) as [Ex|Ex].
  2:{ now rewrite (neural_update_mismatch hidden n_features self). }
  specialize (Hfin Ex).
  destruct (output_row hidden n_features self Hshape)
    as (r2 & c2 & E2 & Eb & Lr2).
  rewrite (neural_update_step hidden n_features self r2 c2 Hshape
             E2 Eb x_i y_i zero Ex).
  unfold Finite.gradients_of in Hfin. rewrite E2, Eb in Hfin.
  simpl hd in Hfin. simpl snd.
  set (g := backprop _ _ _ _ _ _) in *.
  unfold Finite.gradient in Hfin.
  apply andb_prop in Hfin as [Hfin F4].
  apply andb_prop in Hfin as [Hfin F3].
  apply andb_prop in Hfin as [F1 F2].
  unfold Finite.no_negative_zero in Hplain.
  apply andb_prop in Hplain as [Hp P4].
  apply andb_prop in Hp as [Hp P3].
  apply andb_prop in Hp as [P1 P2].
  destruct Hshape as (C1 & L1 & R1 & C2 & L2 & R2 & Lb1 & Lb2).
  pose proof (hidden_length hidden n_features self Hshape x_i) as Lh1.
  assert (Lgz : length (grad_b1 g) = hidden).
  { unfold g, backprop. cbn [grad_b1].
    rewrite map2_length, length_map, Lr2, Lh1. apply Nat.min_id. }
  unfold sgd_step.
  rewrite (descend2_zero (NeuralRegression.w1 self) (grad_W1 g)); auto.
  2:{ unfold g, backprop. cbn [grad_W1].
      apply outer_rows with (c := n_features); auto.
      unfold g, backprop in Lgz. cbn [grad_b1] in Lgz. congruence. }
  rewrite (descend_zero (NeuralRegression.b1 self) (grad_b1 g));
    auto; [|congruence].
  rewrite (descend2_zero (NeuralRegression.w2 self) (grad_W2 g)); auto.
  2:{ unfold g, backprop. cbn [grad_W2].
      apply outer_rows with (c := hidden); auto. }
  rewrite (descend_zero (NeuralRegression.b2 self) (grad_b2 g)); auto.
  unfold NeuralRegression.w1, NeuralRegression.w2.
  now destruct self as [[] [] ? ?].
Qed.

Lemma zero_rate_epoch (X : mat spec_float) (y : vec spec_float) :
  (forall x_i y_i, In (x_i, y_i) (combine X y) ->
     length x_i = n_features ->
     Finite.gradient (Finite.gradients_of self x_i y_i) = true) ->
  snd (train_epoch X y zero self) = self.
Proof.
  revert y. induction X as [|x_i X IH]; intros [|y_i y] Hfin;
    try reflexivity.
  rewrite train_epoch_cons.
  pose proof (zero_rate_update x_i y_i (Hfin x_i y_i (or_introl eq_refl)))
    as U.
  change (update_weight x_i y_i zero self)
    with (NeuralRegression.update_weight x_i y_i zero self).
  destruct (NeuralRegression.update_weight x_i y_i zero self)
    as [[[]|e] s']; simpl in U; subst s'; [|reflexivity].
  apply IH. intros a b Hin. apply Hfin. now right.
Qed.

Lemma zero_rate_epochs (epochs : list (mat spec_float * vec spec_float)) :
  (forall X y x_i y_i, In (X, y) epochs -> In (x_i, y_i) (combine X y) ->
     length x_i = n_features ->
     Finite.gradient (Finite.gradients_of self x_i y_i) = true) ->
  run_epochs zero epochs self = self.
Proof.
  unfold run_epochs. induction epochs as [|[X y] epochs IH]; intros Hfin;
    [reflexivity|].
  simpl. rewrite zero_rate_epoch.
  - apply IH. intros X' y' a b Hin. apply Hfin. now right.
  - intros a b. apply Hfin. now left.
Qed.
End ZeroRate.

(** C7, as the code has it: with learning_rate = 0, a network whose
    parameters hold no negative zero and whose gradients on the training
    examples are all finite (no infinity, no NaN) has exactly its initial
    parameters after any number of [train_epoch] calls on those
    examples, whatever the BLAS. *)
Theorem zero_learning_rate_keeps_parameters :
  forall (HB : Blas spec_float) (HL : BlasLaws spec_float)
         (hidden n_features : nat) (self : NeuralRegression.t spec_float)
         (epochs : list (mat spec_float * vec spec_float)),
    NeuralRegression.shaped hidden n_features self ->
    Finite.no_negative_zero self = true ->
    (forall X y x_i y_i,
        In (X, y) epochs -> In (x_i, y_i) (combine X y) ->
        length x_i = n_features ->
        Finite.gradient (Finite.gradients_of self x_i y_i) = true) ->
    run_epochs (S754_zero false) epochs self = self.
Proof.
  intros HB HL hidden n_features self epochs Hs Hp Hfin.
  now apply (zero_rate_epochs hidden n_features self Hs Hp).
Qed.

(** C7 fails as stated: with learning_rate = 0, one epoch on the example
    (2^1000, 0) turns both weights of a freshly built one-unit network
    into NaN, because the gradients overflow and 0 * inf is NaN. *)
Lemma zero_learning_rate_overflow :
  run_epochs (S754_zero false) [(Overflow.X, Overflow.y)] Overflow.model
    <> Overflow.model
  /\ NeuralRegression.w1
       (run_epochs (S754_zero false) [(Overflow.X, Overflow.y)]
          Overflow.model) = [[S754_nan]]
  /\ NeuralRegression.w2
       (run_epochs (S754_zero false) [(Overflow.X, Overflow.y)]
          Overflow.model) = [[S754_nan]].
Proof.
  split; [|split]; [|vm_compute; reflexivity|vm_compute; reflexivity].
  intros E. apply (f_equal (@NeuralRegression.w1 spec_float)) in E.
  vm_compute in E. discriminate E.
Qed.
(** ** [solve_analytically] in exact arithmetic *)

Section ExactAlgebra.
Context {F : Type} `{ExactRing F}.

Lemma fadd_zero_r (a : F) : fadd a fzero = a.
Proof. now rewrite fadd_comm, fadd_zero_l. Qed.

Lemma fold_left_fadd (l : vec F) (a : F) :
  fold_left fadd l a = fadd a (fsum l).
Proof.
  revert a. induction l as [|x l IH]; intros a; simpl.
  - now rewrite fadd_zero_r.
  - rewrite IH, (IH x). symmetry. apply fadd_assoc.
Qed.

Lemma fsum_cons (x : F) (l : vec F) : fsum (x :: l) = fadd x (fsum l).
Proof. simpl. apply fold_left_fadd. Qed.

Lemma inner_nil_r (a : vec F) : inner a [] = fzero.
Proof. unfold inner, map2. now rewrite combine_nil. Qed.

Lemma inner_cons (a b : F) (u v : vec F) :
  inner (a :: u) (b :: v) = fadd (fmul a b) (inner u v).
Proof. unfold inner. rewrite map2_cons. apply fsum_cons. Qed.

Lemma inner_zeros (n : nat) (v : vec F) : inner (zeros n) v = fzero.
Proof.
  revert v. induction n as [|n IH]; intros [|b v]; try reflexivity.
  unfold zeros. simpl repeat. rewrite inner_cons. fold (zeros n).
  now rewrite IH, fmul_zero_l, fadd_zero_l.
Qed.

Lemma inner_scale (c : F) (u v : vec F) :
  inner (scale c u) v = fmul c (inner u v).
Proof.
  revert v. induction u as [|a u IH]; intros [|b v]; simpl scale;
    rewrite ?inner_nil_r, ?inner_cons, ?fmul_zero_r; try reflexivity.
  - unfold inner. simpl. now rewrite fmul_zero_r.
  - now rewrite IH, fmul_add_distr_l, fmul_assoc.
Qed.

Lemma fadd_shuffle (a b c d : F) :
  fadd (fadd a b) (fadd c d) = fadd (fadd a c) (fadd b d).
Proof.
  rewrite <- (fadd_assoc a b), (fadd_assoc b c), (fadd_comm b c).
  now rewrite <- (fadd_assoc c b), (fadd_assoc a c).
Qed.

Lemma inner_add (u w v : vec F) :
  length u = length w ->
  inner (map2 fadd u w) v = fadd (inner u v) (inner w v).
Proof.
  revert w v. induction u as [|a u IH]; intros [|b w] v; try discriminate;
    intros L.
  - unfold inner. simpl. now rewrite fadd_zero_l.
  - destruct v as [|x v].
    + rewrite !inner_nil_r. now rewrite fadd_zero_l.
    + rewrite map2_cons, !inner_cons, IH by (now injection L).
      now rewrite fmul_add_distr_r, fadd_shuffle.
Qed.

Lemma combination_length (c : nat) (a : vec F) (B : mat F) :
  Forall (fun r => length r = c) B -> length (combination c a B) = c.
Proof.
  intros HB. revert a. induction HB as [|b B Hb _ IH]; intros [|x a];
    try apply repeat_length.
  unfold combination. simpl. fold (combination c a B).
  rewrite map2_length. unfold scale. rewrite length_map, Hb, IH.
  apply Nat.min_id.
Qed.

Lemma map_pointwise_add {A : Type} (f g : A -> F) (l : list A) :
  map (fun j => fadd (f j) (g j)) l = map2 fadd (map f l) (map g l).
Proof.
  induction l as [|j l IH]; [reflexivity|].
  simpl map. rewrite map2_cons. now rewrite IH.
Qed.

Lemma map_constant {A B : Type} (b : B) (l : list A) :
  map (fun _ => b) l = repeat b (length l).
Proof. induction l; simpl; congruence. Qed.

(** The row [a B], column by column, is the combination of the rows of
    [B] with the coefficients [a]. *)
Lemma columns_combination (c : nat) (a : vec F) (B : mat F) :
  Forall (fun r => length r = c) B ->
  map (fun j => inner a (column j B)) (seq 0 c) = combination c a B.
Proof.
  intros HB. revert a. induction HB as [|b B Hb _ IH]; intros a.
  - unfold combination. rewrite combine_nil. simpl.
    rewrite (map_ext _ (fun _ => fzero)) by (intros; apply inner_nil_r).
    now rewrite map_constant, length_seq.
  - destruct a as [|x a].
    + unfold combination. simpl.
      rewrite (map_ext _ (fun _ => fzero)) by reflexivity.
      now rewrite map_constant, length_seq.
    + unfold combination. simpl. fold (combination c a B).
      rewrite <- IH.
      rewrite (map_ext _ (fun j => fadd (fmul x (nth j b fzero))
                                       (inner a (column j B))))
        by (intros; apply inner_cons).
      rewrite map_pointwise_add. f_equal.
      rewrite <- Hb. apply (map_over_indices fzero (fmul x)).
Qed.

Lemma inner_combination (c : nat) (a : vec F) (B : mat F) (v : vec F) :
  Forall (fun r => length r = c) B ->
  inner (combination c a B) v = inner a (matvec B v).
Proof.
  intros HB. revert a. induction HB as [|b B Hb HB IH]; intros a.
  - unfold combination. rewrite combine_nil. simpl.
    now rewrite inner_zeros, inner_nil_r.
  - destruct a as [|x a].
    + unfold combination. simpl. now rewrite inner_zeros.
    + unfold combination. simpl. fold (combination c a B).
      fold (matvec B v). rewrite inner_cons, inner_add, inner_scale, IH.
      * reflexivity.
      * unfold scale. rewrite length_map, Hb.
        now rewrite combination_length.
Qed.

(** (A B) v = A (B v) *)
Lemma matvec_product (A B : mat F) (v : vec F) :
  Forall (fun r => length r = shape1 B) B ->
  matvec (product A B) v = matvec A (matvec B v).
Proof.
  intros HB. unfold matvec at 1 3, product. rewrite map_map.
  apply map_ext. intros a.
  now rewrite columns_combination, inner_combination.
Qed.

Lemma inner_unit (i : nat) (u : vec F) (s : nat) :
  inner (map (fun j => if i =? j then fone else fzero) (seq s (length u))) u
  = if (s <=? i) && (i <? s + length u) then nth (i - s) u fzero
    else fzero.
Proof.
  revert s. induction u as [|x u IH]; intros s.
  - simpl. destruct (s <=? i) eqn:E1; simpl; [|reflexivity].
    destruct (i <? s + 0) eqn:E2; [|reflexivity].
    now destruct (i - s).
  - simpl length. simpl seq. simpl map. rewrite inner_cons, IH.
    destruct (Nat.eqb_spec i s) as [E|Ne];
      destruct (Nat.leb_spec (S s) i) as [L1|L1];
      destruct (Nat.leb_spec s i) as [L2|L2];
      destruct (Nat.ltb_spec i (S s + length u)) as [L3|L3];
      destruct (Nat.ltb_spec i (s + S (length u))) as [L4|L4];
      try lia; cbn [andb];
      rewrite ?fmul_one_l, ?fmul_zero_l, ?fadd_zero_l, ?fadd_zero_r;
      try reflexivity.
    + subst i. now rewrite Nat.sub_diag.
    + replace (i - s) with (S (i - S s)) by lia. reflexivity.
Qed.

Lemma matvec_identity (u : vec F) : matvec (identity (length u)) u = u.
Proof.
  unfold matvec, identity. rewrite map_map.
  transitivity (map (fun i => nth i u fzero) (seq 0 (length u)));
    [|apply map_nth_seq].
  apply map_ext_in. intros i Hi. apply in_seq in Hi.
  rewrite inner_unit. simpl.
  replace (i <? length u) with true by (symmetry; apply Nat.ltb_lt; lia).
  now rewrite Nat.sub_0_r.
Qed.
End ExactAlgebra.

Section SolverExact.
Context {F : Type} `{ExactRing F}.

Lemma elementwise2_same (op : F -> F -> F) (A B : mat F) (c : nat) :
  length A = length B ->
  shape1 A = c -> shape1 B = c ->
  Forall (fun r => length r = c) A -> Forall (fun r => length r = c) B ->
  elementwise2 op A B = Ok (map2 (map2 op) A B).
Proof.
  intros L SA SB HA HB. unfold elementwise2, shape0.
  rewrite L, bshape_same, SA, SB, bshape_same. simpl.
  rewrite stretch_same.
  replace (stretch (length B) A) with A
    by (rewrite <- L; symmetry; apply stretch_same).
  f_equal. clear L SA SB. revert B HB.
  induction HA as [|a A Ha _ IH]; intros B HB; [reflexivity|].
  destruct HB as [|b B Hb HB]; [reflexivity|].
  rewrite !map2_cons. f_equal; [|now apply IH].
  rewrite <- Ha at 1. rewrite <- Hb at 1. now rewrite !stretch_same.
Qed.

Lemma map2_over_list {A B C D : Type} (f : B -> C -> D) (g : A -> B)
  (h : A -> C) (l : list A) :
  map2 f (map g l) (map h l) = map (fun i => f (g i) (h i)) l.
Proof.
  induction l as [|i l IH]; [reflexivity|].
  simpl map. rewrite map2_cons. now rewrite IH.
Qed.

Lemma nth_identity (d i j : nat) :
  i < d -> j < d ->
  nth j (nth i (identity (F := F) d) []) fzero =
  if i =? j then fone else fzero.
Proof.
  intros Hi Hj. unfold identity.
  rewrite (nth_indep _ [] (map (fun j => if 0 =? j then fone else fzero)
                               (seq 0 d)))
    by (now rewrite length_map, length_seq).
  rewrite (map_nth (fun i => map (fun j => if i =? j then fone else fzero)
                                 (seq 0 d)) (seq 0 d) 0 i).
  rewrite seq_nth by exact Hi. simpl.
  rewrite (nth_indep _ fzero (if i =? 0 then fone else fzero))
    by (now rewrite length_map, length_seq).
  rewrite (map_nth (fun j => if i =? j then fone else fzero) (seq 0 d) 0 j).
  now rewrite seq_nth.
Qed.

Lemma column_length (j : nat) (X : mat F) : length (column j X) = length X.
Proof. unfold column. apply length_map. Qed.

Lemma product_rows (A B : mat F) :
  Forall (fun r => length r = shape1 B) (product A B).
Proof.
  unfold product. apply Forall_map, Forall_forall. intros r _.
  now rewrite length_map, length_seq.
Qed.

Lemma matmul_shapes (A B : mat F) :
  shape1 A = shape0 B -> matmul A B = Ok (product A B).
Proof. intros E. unfold matmul. now rewrite E, Nat.eqb_refl. Qed.

Lemma matmul_product (A B C : mat F) :
  matmul A B = Ok C -> C = product A B.
Proof.
  unfold matmul. destruct (shape1 A =? shape0 B); [|discriminate].
  intros E. now injection E.
Qed.

Variable inv : mat F -> result (mat F).
Hypothesis Hinv : exact_inverse inv.

Variables (X : mat F) (y : vec F) (n d : nat).
Hypothesis Hd : 1 <= d.
Hypothesis Hdn : d <= n.
Hypothesis HX : length X = n.
Hypothesis Hrows : Forall (fun x_i => length x_i = d) X.
Hypothesis Hy : length y = n.

Lemma features_shape : shape1 X = d.
Proof.
  apply shape1_rows; [|exact Hrows].
  apply nonempty_length. lia.
Qed.

Lemma transpose_features :
  transpose X = map (fun j => column j X) (seq 0 d).
Proof. unfold transpose. now rewrite features_shape. Qed.

Lemma transpose_shape1 : shape1 (transpose X) = n.
Proof.
  rewrite transpose_features. destruct d as [|d']; [lia|].
  simpl. now rewrite column_length.
Qed.

Lemma transpose_rows :
  Forall (fun r => length r = shape1 (transpose X)) (transpose X).
Proof.
  rewrite transpose_shape1, transpose_features.
  apply Forall_map, Forall_forall. intros j _.
  now rewrite column_length.
Qed.

(** The matrix the code inverts, when there are at least as many points
    as features. *)
Lemma regularized_matrix :
  (xtx <- matmul (transpose X) X ;;
   add2 xtx (multiply2_s (identity (Nat.min (shape0 X) (shape1 X)))
                         lit_0_0001)) =
  Ok (regularized_gram d X lit_0_0001 (identity d)).
Proof.
  rewrite matmul_shapes by (now rewrite transpose_shape1).
  cbn [bindR]. unfold shape0. rewrite features_shape, HX.
  replace (Nat.min n d) with d by lia.
  unfold add2. rewrite (elementwise2_same _ _ _ d).
  - f_equal. unfold product. rewrite features_shape, transpose_features.
    unfold multiply2_s, multiply_s, identity, regularized_gram.
    rewrite !map_map, map2_over_list.
    apply map_ext_in. intros i Hi. rewrite map_map, map2_over_list.
    apply map_ext_in. intros j Hj.
    apply in_seq in Hi. apply in_seq in Hj.
    fold (identity (F := F) d). rewrite nth_identity by lia.
    reflexivity.
  - unfold product, multiply2_s, identity. rewrite transpose_features.
    now rewrite !length_map.
  - unfold product. rewrite transpose_features, features_shape.
    destruct d as [|d']; [lia|]. simpl. now rewrite length_map, length_seq.
  - unfold multiply2_s, multiply_s, identity.
    destruct d as [|d']; [lia|]. simpl.
    now rewrite !length_map, length_seq.
  - eapply Forall_impl; [|apply product_rows].
    simpl. intros r Hr. now rewrite Hr, features_shape.
  - unfold multiply2_s, multiply_s, identity.
    apply Forall_map, Forall_map, Forall_forall. intros i _.
    now rewrite !length_map, length_seq.
Qed.

Lemma regularized_square :
  square d (regularized_gram d X lit_0_0001 (identity d)).
Proof.
  unfold square, regularized_gram. split.
  - now rewrite length_map, length_seq.
  - apply Forall_map, Forall_forall. intros i _.
    now rewrite length_map, length_seq.
Qed.

Lemma solve_analytically_exact (B : mat F) :
  inv (regularized_gram d X lit_0_0001 (identity d)) = Ok B ->
  solve_analytically inv X y = Ok (matvec B (moment d X y)) /\
  solves_normal_equations d X y (identity d) (matvec B (moment d X y)).
Proof.
  intros EB.
  destruct (Hinv d _ B regularized_square EB) as ((LB & RB) & AB).
  assert (SB : shape1 B = d).
  { apply shape1_rows; [|exact RB]. apply nonempty_length. lia. }
  assert (Emoment : matvec (transpose X) y = moment d X y).
  { unfold matvec, moment. now rewrite transpose_features, map_map. }
  split.
  - unfold solve_analytically.
    pose proof regularized_matrix as R.
    destruct (matmul (transpose X) X) as [xtx|e]; [|discriminate R].
    cbn [bindR] in R |- *. rewrite R. cbn [bindR]. rewrite EB.
    cbn [bindR].
    rewrite matmul_shapes.
    2:{ rewrite SB. unfold shape0.
        now rewrite transpose_features, length_map, length_seq. }
    cbn [bindR]. rewrite dot_mv_rows.
    2:{ eapply Forall_impl; [|apply product_rows].
        simpl. intros r Hr. now rewrite Hr, transpose_shape1. }
    f_equal. change (gemv ?M ?v) with (matvec M v).
    change (gemm ?M ?N) with (product M N).
    now rewrite matvec_product, Emoment by apply transpose_rows.
  - unfold solves_normal_equations.
    rewrite <- matvec_product by (now rewrite SB).
    rewrite <- (matmul_product _ _ _ AB).
    replace d with (length (moment d X y)) at 1
      by (unfold moment; now rewrite length_map, length_seq).
    apply matvec_identity.
Qed.
End SolverExact.

(** The rationals are exact. *)
#[export] Instance exact_ring : ExactRing Qc.
Proof.
  constructor; intros; simpl; ring.
Qed.

Lemma inv2_exact : exact_inverse inv2.
Proof.
  intros n A B [L R] E.
  destruct A as [|[|a [|b [|? ?]]] [|[|c [|d [|? ?]]] [|? ?]]];
    try discriminate E; simpl in L; subst n.
  - simpl in E. unfold Qc_eq_bool in E.
    destruct (Qc_eq_dec a (Q2Qc 0)) as [|Ha]; [discriminate|].
    injection E as <-. split; [repeat constructor|].
    unfold matmul, identity. simpl. unfold inner. simpl. do 3 f_equal.
    now apply Qcmult_inv_r.
  - simpl in E. unfold Qc_eq_bool in E.
    destruct (Qc_eq_dec (a * d - b * c)%Qc (Q2Qc 0)) as [|Hdet];
      [discriminate|].
    injection E as <-. split; [repeat constructor|].
    unfold matmul, identity. simpl. unfold inner. simpl.
    repeat f_equal; field; exact Hdet.
Qed.

(** C1 does not hold of the code.  For one point with two features the
    1 x 1 identity is broadcast, so that lambda is added to every entry
    of X^T X, and the w the code returns, (-1, 1), does not satisfy the
    equation with the 1 x 1 identity embedded in a 2 x 2 matrix (nor with
    the full identity).  For two points with three features the addition
    raises and no w is returned, although the comment in the code says
    that with the identity of the smaller extent the regularization can
    always be added. *)
Lemma solve_analytically_few_points :
  solve_analytically inv2 Ridge.X12 Ridge.y1 = Ok [Ridge.q (-1); Ridge.q 1]
  /\ ~ solves_normal_equations 2 Ridge.X12 Ridge.y1 (embedded_identity 1 2)
         [Ridge.q (-1); Ridge.q 1]
  /\ ~ solves_normal_equations 2 Ridge.X12 Ridge.y1 (identity 2)
         [Ridge.q (-1); Ridge.q 1]
  /\ solve_analytically inv2 Ridge.X23 Ridge.y2 = Raise ValueError.
Proof.
  split; [|split; [|split]].
  - vm_compute. reflexivity.
  - intros E. apply (f_equal (map this)) in E. vm_compute in E.
    discriminate E.
  - intros E. apply (f_equal (map this)) in E. vm_compute in E.
    discriminate E.
  - vm_compute. reflexivity.
Qed.

(** ** The statements at concrete inputs *)


Lemma linear_update_rule_witness :
  LinearRegression.update_weight [Example.f 1; Example.f 2] (Example.f 6)
    (Example.f 1) Example.ones =
    (Ok tt, {| LinearRegression.w := [Example.f 4; Example.f 7] |}) /\
  LinearRegression.update_weight [Example.f 1; Example.f 2] (Example.f 3)
    (Example.f 1) Example.ones = (Ok tt, Example.ones) /\
  LinearRegression.update_weight [Example.f 1; Example.f 2] (Example.f 3)
    (S754_infinity false) Example.ones = (Ok tt, Example.ones) /\
  @LinearRegression.update_weight spec_float binary64 reference_blas
    Example.x_close (Example.f 0) (Overflow.pow2 30) Example.close =
    (Ok tt, Example.close) /\
  @LinearRegression.update_weight spec_float binary64 fused_blas
    Example.x_close (Example.f 0) (Overflow.pow2 30) Example.close =
    (Ok tt,
     {| LinearRegression.w :=
          [fadd (fadd (Example.f 1) (Overflow.pow2 (-29)))
                (Overflow.pow2 (-30));
           Example.f 1] |}).
Proof.
  split; [|split; [|split; [|split]]].
  - exact (linear_update_rule spec_float binary64 reference_blas Example.ones
             [Example.f 1; Example.f 2] (Example.f 6) (Example.f 1) eq_refl).
  - exact (linear_update_rule spec_float binary64 reference_blas Example.ones
             [Example.f 1; Example.f 2] (Example.f 3) (Example.f 1) eq_refl).
  - exact (linear_update_rule spec_float binary64 reference_blas Example.ones
             [Example.f 1; Example.f 2] (Example.f 3) (S754_infinity false)
             eq_refl).
  - exact (linear_update_rule spec_float binary64 reference_blas
             Example.close Example.x_close (Example.f 0) (Overflow.pow2 30)
             eq_refl).
  - exact (linear_update_rule spec_float binary64 fused_blas
             Example.close Example.x_close (Example.f 0) (Overflow.pow2 30)
             eq_refl).
Defined.

Lemma neural_update_rule_witness :
  NeuralRegression.update_weight [Example.f 1; Example.f 2] (Example.f 1)
    (Example.f 1) Example.two_units =
    (Ok tt,
     {| NeuralRegression.w1_array :=
          {| cols := 2;
             rows := [[Example.f (-1); Example.f (-3)];
                      [Example.f (-1); Example.f 0]] |};
        NeuralRegression.w2_array :=
          {| cols := 2; rows := [[Example.f (-5); Example.f (-2)]] |};
        NeuralRegression.b1 := [Example.f (-2); Example.f 0];
        NeuralRegression.b2 := [Example.f (-2)] |}) /\
  NeuralRegression.update_weight [Example.f 1; Example.f 2] (Example.f 1)
    (Example.f 1) Example.no_units =
    (Ok tt,
     {| NeuralRegression.w1_array := {| cols := 2; rows := [] |};
        NeuralRegression.w2_array := {| cols := 0; rows := [[]] |};
        NeuralRegression.b1 := [];
        NeuralRegression.b2 := [Example.f 1] |}).
Proof.
  split.
  - apply (neural_update_rule spec_float binary64 reference_blas
             reference_blas_laws 2 2 Example.two_units
             [Example.f 1; Example.f (-2)] (Example.f 0)
             [Example.f 1; Example.f 2] (Example.f 1) (Example.f 1)).
    + repeat split; repeat constructor.
    + reflexivity.
    + reflexivity.
    + reflexivity.
  - apply (neural_update_rule spec_float binary64 reference_blas
             reference_blas_laws 0 2 Example.no_units
             [] (Example.f 0)
             [Example.f 1; Example.f 2] (Example.f 1) (Example.f 1)).
    + repeat split; repeat constructor.
    + reflexivity.
    + reflexivity.
    + reflexivity.
Defined.

Lemma neural_predict_preactivation_witness :
  NeuralRegression.predict
    [[Example.f 1; Example.f 2]; [Example.f (-1); Example.f 1]]
    Example.two_units =
  (Ok [Example.f 3; Example.f (-2)], Example.two_units).
Proof.
  apply (neural_predict_preactivation spec_float binary64 reference_blas
           reference_blas_laws 2 2 Example.two_units
           [Example.f 1; Example.f (-2)] (Example.f 0)
           [[Example.f 1; Example.f 2]; [Example.f (-1); Example.f 1]]).
  - repeat split; repeat constructor.
  - reflexivity.
  - reflexivity.
  - repeat constructor.
Defined.

Lemma evaluate_rmse_witness :
  evaluates_to Example.X22 [Example.f (-2); Example.f 2] Example.ones
    (Example.f 5) /\
  evaluates_to [[Example.f 1; Example.f 2]; [Example.f (-1); Example.f 1]]
    [Example.f (-2); Example.f 3] Example.two_units (Example.f 5).
Proof.
  split.
  - assert (N : Example.X22 <> []) by discriminate.
    destruct (proj1 (evaluate_rmse spec_float binary64 binary64_sqrt
                       reference_blas reference_blas_laws Example.X22
                       [Example.f (-2); Example.f 2] N eq_refl)
                Example.ones) as (yhat & P & E).
    + repeat constructor.
    + vm_compute in P. injection P as <-. exact E.
  - assert (N : [[Example.f 1; Example.f 2]; [Example.f (-1); Example.f 1]]
                <> []) by discriminate.
    destruct (proj2 (evaluate_rmse spec_float binary64 binary64_sqrt
                       reference_blas reference_blas_laws
                       [[Example.f 1; Example.f 2];
                        [Example.f (-1); Example.f 1]]
                       [Example.f (-2); Example.f 3] N eq_refl)
                2 2 Example.two_units) as (yhat & P & E).
    + repeat split; repeat constructor.
    + repeat constructor.
    + vm_compute in P. injection P as <-. exact E.
Defined.

Lemma zero_learning_rate_keeps_parameters_witness :
  run_epochs (S754_zero false)
    [(Example.X21, [Example.f 0; Example.f 1]);
     (Example.X21, [Example.f 1; Example.f 0])] Example.network =
  Example.network.
Proof.
  apply (zero_learning_rate_keeps_parameters reference_blas
           reference_blas_laws 1 1 Example.network).
  - repeat split; repeat constructor.
  - reflexivity.
  - intros X y x_i y_i HX Hx _.
    destruct HX as [E|[E|[]]]; injection E as <- <-;
      (destruct Hx as [E|[E|[]]]; injection E as <- <-;
       vm_compute; reflexivity).
Defined.

Lemma shuffle_preserves_examples_witness :
  exists losses consumed,
    training_loop (S := Recorder.t spec_float) [[1; 0]; [0; 1]]
      Example.X22 Example.y2 Example.X13 Example.y1 lit_0_001 [] =
      (Ok losses, concat consumed) /\
    length consumed = 2 /\
    Forall (fun c => Permutation c (combine Example.X22 Example.y2)) consumed.
Proof.
  apply (shuffle_preserves_examples spec_float binary64 binary64_sqrt
           [[1; 0]; [0; 1]] Example.X22 Example.y2 Example.X13 Example.y1
           lit_0_001).
  - reflexivity.
  - reflexivity.
  - repeat constructor.
Defined.

Lemma dimension_mismatch_rejected_witness :
  train_epoch Example.X13 Example.y1 lit_0_001 Example.linear =
    (Raise ValueError, Example.linear) /\
  train_epoch Example.X13 Example.y1 lit_0_001 Example.network =
    (Raise ValueError, Example.network) /\
  train_epoch Example.X13 Example.y1 lit_0_001 Example.no_units =
    (Raise ValueError, Example.no_units).
Proof.
  assert (NX : Example.X13 <> []) by discriminate.
  assert (Ny : Example.y1 <> []) by discriminate.
  assert (R : Forall (fun x_i : vec spec_float => length x_i = 3)
                Example.X13) by repeat constructor.
  destruct (dimension_mismatch_rejected spec_float binary64 reference_blas
              Example.X13 Example.y1 lit_0_001 3 NX Ny R) as [L N].
  split; [|split].
  - apply (L Example.linear). discriminate.
  - apply (N 1 1 Example.network).
    + repeat split; repeat constructor.
    + discriminate.
  - apply (N 0 2 Example.no_units).
    + repeat split; repeat constructor.
    + discriminate.
Defined.
(** * Further properties of the code *)

(** ** Epochs and the training loop *)

Section EpochComposition.
Context {F : Type} `{Scalar F}.
Context {S : Type} `{RegressionModel F S}.

Lemma train_epoch_app (X1 X2 : mat F) (y1 y2 : vec F) lr (s : S) :
  length X1 = length y1 ->
  train_epoch (X1 ++ X2) (y1 ++ y2) lr s =
  (train_epoch X1 y1 lr ;;; train_epoch X2 y2 lr) s.
Proof.
  revert y1 s. induction X1 as [|x_i X1 IH]; intros [|y_i y1] s L;
    try discriminate L.
  - reflexivity.
  - simpl app. rewrite train_epoch_cons. unfold bindM at 1.
    rewrite train_epoch_cons.
    destruct (update_weight x_i y_i lr s) as [[[]|e] s']; [|reflexivity].
    rewrite IH by (now injection L). reflexivity.
Qed.
End EpochComposition.

(** X1: an epoch over two data sets laid end to end is the epoch over the
    first followed by the epoch over the second, on the state the first one
    left; when the first raises, the second is not started. *)
Theorem train_epoch_concatenation :
  forall (F S : Type) (HF : Scalar F) (HM : RegressionModel F S)
         (X1 X2 : mat F) (y1 y2 : vec F) (learning_rate : F) (s : S),
    length X1 = length y1 ->
    train_epoch (X1 ++ X2) (y1 ++ y2) learning_rate s =
    (train_epoch X1 y1 learning_rate ;;;
     train_epoch X2 y2 learning_rate) s.
Proof.
  intros. now apply train_epoch_app.
Qed.

Lemma train_epoch_concatenation_witness :
  train_epoch (Example.X22 ++ Example.X22) (Example.y2 ++ Example.y2)
    lit_0_001 Example.linear =
  (train_epoch Example.X22 Example.y2 lit_0_001 ;;;
   train_epoch Example.X22 Example.y2 lit_0_001) Example.linear.
Proof.
  apply (train_epoch_concatenation spec_float (LinearRegression.t spec_float)
           binary64 LinearRegression_model Example.X22 Example.X22
           Example.y2 Example.y2 lit_0_001 Example.linear).
  reflexivity.
Defined.

Section LoopFacts.
Context {F : Type} `{Scalar F} `{Sqrt F} `{Blas F}.
Context {S : Type} `{RegressionModel F S}.

Lemma training_loop_cons (o : list nat) (orders : list (list nat))
  (train_X : mat F) (train_y : vec F) (test_X : mat F) (test_y : vec F)
  lr (s : S) :
  training_loop (o :: orders) train_X train_y test_X test_y lr s =
  (train_X' <~ lift (take train_X o) ;;
   train_y' <~ lift (take train_y o) ;;
   train_epoch train_X' train_y' lr ;;;
   train_loss <~ evaluate train_X' train_y' ;;
   test_loss <~ evaluate test_X test_y ;;
   losses <~ training_loop orders train_X' train_y' test_X test_y lr ;;
   ret (train_loss :: fst losses, test_loss :: snd losses)) s.
Proof. reflexivity. Qed.

Lemma training_loop_losses (orders : list (list nat)) (test_X : mat F)
  (test_y : vec F) lr :
  forall (train_X : mat F) (train_y : vec F) (s s' : S)
         (losses : list F * list F),
    training_loop orders train_X train_y test_X test_y lr s =
      (Ok losses, s') ->
    length (fst losses) = length orders /\
    length (snd losses) = length orders.
Proof.
  induction orders as [|o orders IH]; intros train_X train_y s s' losses E.
  - injection E as <- _. auto.
  - rewrite training_loop_cons in E. unfold bindM, lift in E.
    destruct (take train_X o) as [X'|]; [|discriminate E].
    destruct (take train_y o) as [y'|]; [|discriminate E].
    destruct (train_epoch X' y' lr s) as [[[]|] s1]; [|discriminate E].
    destruct (evaluate X' y' s1) as [[l1|] s2]; [|discriminate E].
    destruct (evaluate test_X test_y s2) as [[l2|] s3]; [|discriminate E].
    destruct (training_loop orders X' y' test_X test_y lr s3)
      as [[rest|] s4] eqn:R; [|discriminate E].
    unfold ret in E. injection E as <- _.
    destruct (IH _ _ _ _ _ R) as [L1 L2]. simpl. auto.
Qed.

Lemma take_out_of_range {A : Type} (a : list A) (order : list nat) :
  (exists i, In i order /\ length a <= i) ->
  take a order = Raise IndexError.
Proof.
  unfold take. induction order as [|j order IH]; intros (i & Hi & Li).
  - destruct Hi.
  - simpl. destruct (nth_error a j) as [x|] eqn:E; [|reflexivity].
    simpl. rewrite IH; [reflexivity|].
    destruct Hi as [->|Hi]; [|eauto].
    apply nth_error_None in Li. congruence.
Qed.

Lemma take_prefix {A : Type} (a extra : list A) (order : list nat) :
  Forall (fun i => i < length a) order ->
  take (a ++ extra) order = take a order.
Proof.
  unfold take. induction 1 as [|i order Hi _ IH]; [reflexivity|].
  simpl. rewrite IH. now rewrite nth_error_app1.
Qed.
End LoopFacts.

(** X2: when the training loop returns, it returns one training loss and
    one test loss for every epoch. *)
Theorem training_loop_one_loss_per_epoch :
  forall (F S : Type) (HF : Scalar F) (HS : Sqrt F)
         (HM : RegressionModel F S) (orders : list (list nat))
         (train_X : mat F) (train_y : vec F) (test_X : mat F)
         (test_y : vec F) (learning_rate : F) (s s' : S)
         (losses : list F * list F),
    training_loop orders train_X train_y test_X test_y learning_rate s =
      (Ok losses, s') ->
    length (fst losses) = length orders /\
    length (snd losses) = length orders.
Proof.
  intros F S HF HS HM orders train_X train_y test_X test_y lr s s' losses.
  apply training_loop_losses.
Qed.

(** X3: with fewer training targets than training rows, the first epoch
    raises IndexError when the targets are indexed by the permutation of
    the row indices, before any update: the model is left as it was. *)
Theorem training_loop_short_targets :
  forall (F S : Type) (HF : Scalar F) (HS : Sqrt F)
         (HM : RegressionModel F S) (train_order : list nat)
         (epochs : list (list nat)) (train_X : mat F) (train_y : vec F)
         (test_X : mat F) (test_y : vec F) (learning_rate : F) (s : S),
    Permutation train_order (seq 0 (length train_X)) ->
    length train_y < length train_X ->
    training_loop (train_order :: epochs) train_X train_y test_X test_y
      learning_rate s = (Raise IndexError, s).
Proof.
  intros F S HF HS HM o epochs train_X train_y test_X test_y lr s P L.
  rewrite training_loop_cons. unfold bindM at 1. unfold lift at 1.
  rewrite (take_in_range [] train_X o)
    by (apply (permutation_in_range o _ P)).
  unfold bindM at 1. unfold lift at 1.
  rewrite take_out_of_range; [reflexivity|].
  exists (length train_y). split; [|lia].
  apply (Permutation_in _ (Permutation_sym P)), in_seq. lia.
Qed.

(** X4: training targets beyond the indices the first permutation draws
    are never read: appending surplus targets changes nothing in the run
    of the training loop. *)
Theorem training_loop_surplus_targets :
  forall (F S : Type) (HF : Scalar F) (HS : Sqrt F)
         (HM : RegressionModel F S) (orders : list (list nat))
         (train_X : mat F) (train_y surplus : vec F) (test_X : mat F)
         (test_y : vec F) (learning_rate : F) (s : S),
    Forall (fun i => i < length train_y) (hd [] orders) ->
    training_loop orders train_X (train_y ++ surplus) test_X test_y
      learning_rate s =
    training_loop orders train_X train_y test_X test_y learning_rate s.
Proof.
  intros F S HF HS HM orders train_X train_y surplus test_X test_y lr s R.
  destruct orders as [|o orders]; [reflexivity|].
  rewrite !training_loop_cons. simpl in R.
  unfold bindM at 1 8. unfold lift at 1 3.
  destruct (take train_X o) as [X'|e]; [|reflexivity].
  unfold bindM at 1 7. unfold lift at 1 2.
  now rewrite take_prefix.
Qed.

Lemma training_loop_one_loss_per_epoch_witness :
  exists (losses : list spec_float * list spec_float)
         (s' : LinearRegression.t spec_float),
    training_loop [[1; 0]; [0; 1]] Example.X22 Example.y2 Example.X22
      Example.y2 lit_0_001 Example.linear = (Ok losses, s') /\
    length (fst losses) = 2 /\ length (snd losses) = 2.
Proof.
  eexists. eexists. split.
  - vm_compute. reflexivity.
  - eapply (training_loop_one_loss_per_epoch spec_float
              (LinearRegression.t spec_float) binary64 binary64_sqrt
              LinearRegression_model [[1; 0]; [0; 1]] Example.X22 Example.y2
              Example.X22 Example.y2 lit_0_001 Example.linear).
    vm_compute. reflexivity.
Defined.

Lemma training_loop_short_targets_witness :
  training_loop [[1; 0]; [0; 1]] Example.X22 Example.y1 Example.X22
    Example.y2 lit_0_001 Example.linear = (Raise IndexError, Example.linear).
Proof.
  apply (training_loop_short_targets spec_float
           (LinearRegression.t spec_float) binary64 binary64_sqrt
           LinearRegression_model [1; 0] [[0; 1]] Example.X22 Example.y1
           Example.X22 Example.y2 lit_0_001 Example.linear).
  - apply perm_swap.
  - simpl. lia.
Defined.

Lemma training_loop_surplus_targets_witness :
  training_loop [[1; 0]; [0; 1]] Example.X22 (Example.y2 ++ Example.y1)
    Example.X22 Example.y2 lit_0_001 Example.linear =
  training_loop [[1; 0]; [0; 1]] Example.X22 Example.y2 Example.X22
    Example.y2 lit_0_001 Example.linear.
Proof.
  apply (training_loop_surplus_targets spec_float
           (LinearRegression.t spec_float) binary64 binary64_sqrt
           LinearRegression_model [[1; 0]; [0; 1]] Example.X22 Example.y2
           Example.y1 Example.X22 Example.y2 lit_0_001 Example.linear).
  repeat constructor.
Defined.

(** ** Predictions *)

Section PredictFacts.
Context {F : Type} `{Scalar F} `{Blas F}.

Lemma predict_loop_accumulates (self : NeuralRegression.t F) (X : mat F)
  (Y_hat : vec F) :
  NeuralRegression.predict_loop self X Y_hat =
  (p <- NeuralRegression.predict_loop self X [] ;; Ok (Y_hat ++ p)).
Proof.
  revert Y_hat. induction X as [|x_i X IH]; intros Y_hat; simpl.
  - now rewrite app_nil_r.
  - destruct (NeuralRegression.predict_row self x_i) as [z|e];
      [|reflexivity].
    simpl. rewrite IH, (IH [z]).
    destruct (NeuralRegression.predict_loop self X []) as [p|e];
      [|reflexivity].
    simpl. now rewrite <- app_assoc.
Qed.

Lemma predict_loop_app (self : NeuralRegression.t F) (X1 X2 : mat F)
  (Y_hat : vec F) :
  NeuralRegression.predict_loop self (X1 ++ X2) Y_hat =
  (p <- NeuralRegression.predict_loop self X1 Y_hat ;;
   NeuralRegression.predict_loop self X2 p).
Proof.
  revert Y_hat. induction X1 as [|x_i X1 IH]; intros Y_hat; simpl.
  - reflexivity.
  - destruct (NeuralRegression.predict_row self x_i) as [z|e];
      [|reflexivity].
    simpl. apply IH.
Qed.
End PredictFacts.

(** X5: [predict] of [NeuralRegression], which loops over the rows,
    predicts every row on its own: on two matrices laid end to end it
    returns the predictions of the first followed by those of the second,
    and an exception of the first part comes first.  This holds in every
    state of the network and for every BLAS. *)
Theorem predict_concatenation :
  forall (F : Type) (HF : Scalar F) (HB : Blas F) (X1 X2 : mat F)
         (self : NeuralRegression.t F),
    fst (NeuralRegression.predict (X1 ++ X2) self) =
    (p1 <- fst (NeuralRegression.predict X1 self) ;;
     p2 <- fst (NeuralRegression.predict X2 self) ;;
     Ok (p1 ++ p2)).
Proof.
  intros F HF HB X1 X2 self.
  unfold NeuralRegression.predict. simpl. rewrite predict_loop_app.
  destruct (NeuralRegression.predict_loop self X1 []) as [p1|e];
    [|reflexivity].
  simpl. apply predict_loop_accumulates.
Qed.

Lemma predict_concatenation_witness :
  fst (NeuralRegression.predict
         ([[Example.f 1; Example.f 2]] ++ [[Example.f (-1); Example.f 1]])
         Example.two_units) =
  Ok ([Example.f 3] ++ [Example.f (-2)]).
Proof.
  rewrite (predict_concatenation spec_float binary64 reference_blas
             [[Example.f 1; Example.f 2]] [[Example.f (-1); Example.f 1]]
             Example.two_units).
  reflexivity.
Defined.

(** ** Parameter shapes under training *)

Section ShapeFacts.
Context {F : Type} `{Scalar F} `{Blas F}.

Lemma linear_update_step (self : LinearRegression.t F) (x_i : vec F)
  (y_i lr : F) :
  length x_i = length (LinearRegression.w self) ->
  exists w',
    LinearRegression.update_weight x_i y_i lr self =
      (Ok tt, {| LinearRegression.w := w' |}) /\
    length w' = length (LinearRegression.w self).
Proof.
  intros E. rewrite (linear_update_value self x_i y_i lr E).
  destruct (fneb (fdot x_i (LinearRegression.w self)) y_i).
  - eexists. split; [reflexivity|].
    rewrite map2_length, E. apply Nat.min_id.
  - exists (LinearRegression.w self). split; [now destruct self|reflexivity].
Qed.

Lemma linear_update_dimension (self : LinearRegression.t F) (x_i : vec F)
  (y_i lr : F) :
  length (LinearRegression.w
            (snd (LinearRegression.update_weight x_i y_i lr self))) =
  length (LinearRegression.w self).
Proof.
  destruct (Nat.eq_dec (length x_i) (length (LinearRegression.w self)))
    as [E|E].
  - destruct (linear_update_step self x_i y_i lr E) as (w' & U & L).
    now rewrite U.
  - now rewrite linear_update_mismatch.
Qed.

Lemma linear_epoch_dimension (X : mat F) (y : vec F) lr :
  forall self : LinearRegression.t F,
    length (LinearRegression.w (snd (train_epoch X y lr self))) =
    length (LinearRegression.w self).
Proof.
  revert y. induction X as [|x_i X IH]; intros [|y_i y] self;
    try reflexivity.
  rewrite train_epoch_cons.
  pose proof (linear_update_dimension self x_i y_i lr) as D.
  change (update_weight x_i y_i lr self)
    with (LinearRegression.update_weight x_i y_i lr self).
  destruct (LinearRegression.update_weight x_i y_i lr self) as [[[]|e] s'];
    simpl in D.
  - now rewrite IH.
  - exact D.
Qed.

Lemma linear_epoch_returns (X : mat F) (y : vec F) lr :
  forall self : LinearRegression.t F,
    Forall (fun x_i => length x_i = length (LinearRegression.w self)) X ->
    fst (train_epoch X y lr self) = Ok tt.
Proof.
  revert y. induction X as [|x_i X IH]; intros [|y_i y] self HX;
    try reflexivity.
  rewrite train_epoch_cons. inversion HX as [|? ? Hx HX']; subst.
  destruct (linear_update_step self x_i y_i lr Hx) as (w' & U & L).
  change (update_weight x_i y_i lr self)
    with (LinearRegression.update_weight x_i y_i lr self).
  rewrite U. apply IH. simpl. now rewrite L.
Qed.

Lemma descend_length (lr : F) (p g : vec F) :
  length p = length g -> length (descend lr p g) = length p.
Proof.
  intros E. unfold descend. rewrite map2_length, E. apply Nat.min_id.
Qed.

Lemma descend2_shape (lr : F) (P G : mat F) (c : nat) :
  Forall2 (fun p g => length p = length g) P G ->
  Forall (fun r => length r = c) P ->
  length (descend2 lr P G) = length P /\
  Forall (fun r => length r = c) (descend2 lr P G).
Proof.
  induction 1 as [|p g P G L _ IH]; intros HP.
  - split; [reflexivity|constructor].
  - inversion HP as [|? ? Hp HP']; subst.
    destruct (IH HP') as [L' R']. unfold descend2.
    rewrite map2_cons. fold (descend2 lr P G). split.
    + simpl. now rewrite L'.
    + constructor; [|exact R']. now rewrite descend_length.
Qed.

Context `{!BlasLaws F}.
Variables (hidden n_features : nat).

Lemma neural_update_shaped (self : NeuralRegression.t F) (x_i : vec F)
  (y_i lr : F) :
  NeuralRegression.shaped hidden n_features self ->
  NeuralRegression.shaped hidden n_features
    (snd (NeuralRegression.update_weight x_i y_i lr self)) /\
  (length x_i = n_features ->
   fst (NeuralRegression.update_weight x_i y_i lr self) = Ok tt).
Proof.
  intros Hs.
  destruct (Nat.eq_dec (length x_i) n_features) as [Ex|Ex].
  2:{ rewrite (neural_update_mismatch hidden n_features self)
        by assumption.
      split; [exact Hs|contradiction]. }
  destruct (output_row hidden n_features self Hs)
    as (r2 & c2 & E2 & Eb & Lr2).
  rewrite (neural_update_step hidden n_features self r2 c2 Hs
             E2 Eb x_i y_i lr Ex).
  split; [|reflexivity]. simpl snd.
  pose proof (hidden_length hidden n_features self Hs x_i) as Lh1.
  destruct Hs as (C1 & L1 & R1 & C2 & L2 & R2 & Lb1 & Lb2).
  set (g := backprop _ _ _ _ _ _).
  assert (Lgz : length (grad_b1 g) = hidden).
  { unfold g, backprop. cbn [grad_b1].
    rewrite map2_length, length_map, Lr2, Lh1. apply Nat.min_id. }
  destruct (descend2_shape lr (NeuralRegression.w1 self) (grad_W1 g)
              n_features) as [A1 A2]; [|exact R1|].
  { unfold g, backprop. cbn [grad_W1].
    apply outer_rows with (c := n_features); auto.
    unfold g, backprop in Lgz. cbn [grad_b1] in Lgz. congruence. }
  destruct (descend2_shape lr (NeuralRegression.w2 self) (grad_W2 g)
              hidden) as [B1 B2]; [|exact R2|].
  { unfold g, backprop. cbn [grad_W2].
    apply outer_rows with (c := hidden); auto. }
  unfold NeuralRegression.shaped, sgd_step, NeuralRegression.w1,
    NeuralRegression.w2 in *.
  cbn [NeuralRegression.w1_array NeuralRegression.w2_array
       NeuralRegression.b1 NeuralRegression.b2 cols rows].
  repeat split.
  - exact C1.
  - congruence.
  - exact A2.
  - exact C2.
  - congruence.
  - exact B2.
  - rewrite descend_length; congruence.
  - rewrite descend_length; [exact Lb2|]. now rewrite Lb2.
Qed.

Lemma neural_epoch_shaped (X : mat F) (y : vec F) lr :
  forall self : NeuralRegression.t F,
    NeuralRegression.shaped hidden n_features self ->
    NeuralRegression.shaped hidden n_features
      (snd (train_epoch X y lr self)) /\
    (Forall (fun x_i => length x_i = n_features) X ->
     fst (train_epoch X y lr self) = Ok tt).
Proof.
  revert y. induction X as [|x_i X IH]; intros [|y_i y] self Hs;
    try (split; [exact Hs|reflexivity]).
  rewrite train_epoch_cons.
  destruct (neural_update_shaped self x_i y_i lr Hs) as [U1 U2].
  change (update_weight x_i y_i lr self)
    with (NeuralRegression.update_weight x_i y_i lr self).
  destruct (NeuralRegression.update_weight x_i y_i lr self) as [[[]|e] s'];
    simpl in U1, U2.
  - destruct (IH y s' U1) as [I1 I2]. split; [exact I1|].
    intros HX. inversion HX; subst. now apply I2.
  - split; [exact U1|]. intros HX. inversion HX; subst.
    now apply U2.
Qed.
End ShapeFacts.

(** X6: whatever the data, [train_epoch] leaves the parameters of either
    model with the shapes they had: the weight vector of
    [LinearRegression] keeps its length, and a [NeuralRegression] with the
    shapes [__init__] builds still has them afterwards, also when the
    epoch raises. *)
Theorem train_epoch_keeps_shapes :
  forall (F : Type) (HF : Scalar F) (X : mat F) (y : vec F)
         (learning_rate : F),
    (forall self : LinearRegression.t F,
        length (LinearRegression.w (snd (train_epoch X y learning_rate self)))
        = length (LinearRegression.w self)) /\
    (forall (hidden n_features : nat) (self : NeuralRegression.t F),
        1 <= hidden -> 1 <= n_features ->
        NeuralRegression.shaped hidden n_features self ->
        NeuralRegression.shaped hidden n_features
          (snd (train_epoch X y learning_rate self))).
Proof.
  intros F HF X y lr. split.
  - apply linear_epoch_dimension.
  - intros hidden n_features self Hh Hd Hs.
    now apply (neural_epoch_shaped hidden n_features X y lr self Hs).
Qed.

Lemma train_epoch_keeps_shapes_witness :
  NeuralRegression.shaped 1 1
    (snd (train_epoch Example.X21 Example.y2 lit_0_001 Example.network)).
Proof.
  apply (proj2 (train_epoch_keeps_shapes spec_float binary64 Example.X21
                  Example.y2 lit_0_001) 1 1 Example.network).
  - lia.
  - lia.
  - repeat split; repeat constructor.
Defined.



(** ** [evaluate] on ill-matched and empty data *)

Section EvaluateEdges.
Context {F : Type} `{Scalar F} `{Sqrt F} `{Blas F}.
Context {S : Type} `{RegressionModel F S}.

Lemma bshape_mismatch (a b : nat) :
  a <> b -> a <> 1 -> b <> 1 -> bshape a b = Raise ValueError.
Proof.
  intros N1 N2 N3. unfold bshape.
  apply Nat.eqb_neq in N1, N2, N3. now rewrite N1, N2, N3.
Qed.

Lemma evaluate_not_broadcastable (X : mat F) (y yhat : vec F) (s : S) :
  predict X s = (Ok yhat, s) ->
  length yhat <> length y -> length yhat <> 1 -> length y <> 1 ->
  evaluate X y s = (Raise ValueError, s).
Proof.
  intros P N1 N2 N3. unfold evaluate, bindM. rewrite P.
  unfold lift, subtract, elementwise.
  now rewrite bshape_mismatch.
Qed.


Lemma stretch_single {A : Type} (n : nat) (a : A) :
  stretch n [a] = repeat a n.
Proof. reflexivity. Qed.

Lemma map2_repeat_r {A B C : Type} (f : A -> B -> C) (l : list A) (b : B) :
  map2 f l (repeat b (length l)) = map (fun a => f a b) l.
Proof.
  induction l as [|a l IH]; [reflexivity|].
  simpl repeat. rewrite map2_cons. simpl. now rewrite IH.
Qed.

End EvaluateEdges.

Section EvaluateSingle.
Context {F : Type} `{Scalar F} `{Sqrt F}.
Context {S : Type} `{RegressionModel F S}.

End EvaluateSingle.

Section EvaluateModels.
Context {F : Type} `{Scalar F} `{Sqrt F} `{Blas F}.


End EvaluateModels.

(** X8: for either model, [evaluate] raises a shape error and leaves the
    model as it is when the number of rows and the number of targets
    differ and neither is 1 (the difference of predictions and targets
    cannot be broadcast). *)
Theorem evaluate_length_mismatch :
  forall (F : Type) (HF : Scalar F) (HS : Sqrt F) (X : mat F) (y : vec F),
    length X <> length y -> length X <> 1 -> length y <> 1 ->
    (forall self : LinearRegression.t F,
        Forall (fun x_i => length x_i = length (LinearRegression.w self)) X ->
        evaluate X y self = (Raise ValueError, self)) /\
    (forall (hidden n_features : nat) (self : NeuralRegression.t F),
        NeuralRegression.shaped hidden n_features self ->
        Forall (fun x_i => length x_i = n_features) X ->
        evaluate X y self = (Raise ValueError, self)).
Proof.
  intros F HF HS X y N1 N2 N3. split.
  - intros self HX.
    apply evaluate_not_broadcastable
      with (yhat := gemv X (LinearRegression.w self));
      rewrite ?gemv_length; auto.
    now apply linear_predict_rows.
  - intros hidden n_features self Hs HX.
    destruct (neural_predict_returns hidden n_features self X Hs HX)
      as (yhat & P & Ly).
    apply evaluate_not_broadcastable with (yhat := yhat);
      rewrite ?Ly; auto.
Qed.

Lemma evaluate_length_mismatch_witness :
  evaluate (Example.X22 ++ Example.X22) Example.y2 Example.linear =
  (Raise ValueError, Example.linear).
Proof.
  apply (proj1 (evaluate_length_mismatch spec_float binary64 binary64_sqrt
                  (Example.X22 ++ Example.X22) Example.y2
                  ltac:(discriminate) ltac:(discriminate)
                  ltac:(discriminate)) Example.linear).
  repeat constructor.
Defined.





(** ** [solve_analytically] outside its intended use *)

Section SolverEdges.
Context {F : Type} `{Scalar F}.
Variable inv : mat F -> result (mat F).

Lemma shape1_as_column (x : F) (v : vec F) : shape1 (as_column (x :: v)) = 1.
Proof. reflexivity. Qed.

(** The transpose of a one-column matrix is the column as a row. *)
Lemma transpose_as_column (v : vec F) :
  v <> [] -> transpose (as_column v) = [v].
Proof.
  destruct v as [|x v]; [congruence|]. intros _.
  unfold transpose. rewrite shape1_as_column.
  change (seq 0 1) with [0]. cbn [map].
  now rewrite column0_as_column.
Qed.

(** The transpose of a one-row matrix is the row as a column. *)
Lemma transpose_row (r : vec F) : transpose [r] = as_column r.
Proof.
  unfold transpose, column, as_column. simpl.
  apply (map_over_indices fzero (fun x => [x])).
Qed.

(** A column times a row is the outer product. *)
Lemma matmul_outer (u v : vec F) :
  u <> [] -> v <> [] ->
  matmul (as_column u) (transpose (as_column v)) = Ok (outer u v).
Proof.
  intros Hu Hv. rewrite (transpose_as_column v Hv).
  destruct u as [|a u]; [congruence|].
  unfold matmul. rewrite shape1_as_column. simpl shape0.
  simpl Nat.eqb. cbv iota. f_equal.
  apply (gemm_column_row (a :: u) v).
Qed.

Lemma transpose_columns (X : mat F) (d : nat) :
  X <> [] -> Forall (fun x_i => length x_i = d) X ->
  transpose X = map (fun j => column j X) (seq 0 d).
Proof.
  intros NX HX. unfold transpose. now rewrite (shape1_rows X d NX HX).
Qed.

Lemma gram_returns (X : mat F) (d : nat) :
  X <> [] -> 1 <= d -> Forall (fun x_i => length x_i = d) X ->
  matmul (transpose X) X = Ok (product (transpose X) X) /\
  length (product (transpose X) X) = d.
Proof.
  intros NX Hd HX. split.
  - apply matmul_shapes. rewrite (transpose_columns X d NX HX).
    destruct d as [|d']; [lia|]. simpl. unfold column.
    now rewrite length_map.
  - unfold product. rewrite length_map, (transpose_columns X d NX HX).
    now rewrite length_map, length_seq.
Qed.

Lemma solve_few_points (X : mat F) (y : vec F) (n d : nat) :
  length X = n -> Forall (fun x_i => length x_i = d) X ->
  1 < n -> n < d ->
  solve_analytically inv X y = Raise ValueError.
Proof.
  intros LX HX Hn Hd.
  assert (NX : X <> []) by (apply nonempty_length; lia).
  destruct (gram_returns X d NX ltac:(lia) HX) as [G LG].
  unfold solve_analytically. rewrite G. cbn [bindR].
  unfold add2, elementwise2, shape0.
  rewrite LG. unfold multiply2_s, identity.
  rewrite !length_map, length_seq, LX, (shape1_rows X d NX HX).
  replace (Nat.min n d) with n by lia.
  rewrite bshape_mismatch by lia. reflexivity.
Qed.

Lemma stretch_long {A : Type} (n : nat) (l : list A) :
  length l <> 1 -> stretch n l = l.
Proof. destruct l as [|a [|b l]]; try reflexivity. now intros []. Qed.

Lemma bshape_one_r (a : nat) : bshape a 1 = Ok a.
Proof.
  unfold bshape. destruct (Nat.eqb_spec a 1) as [->|N]; reflexivity.
Qed.

(** Adding a 1 x 1 array to a matrix with at least two rows and columns
    adds its entry everywhere. *)
Lemma add2_scalar (A : mat F) (b : F) (c : nat) :
  2 <= length A -> 2 <= c -> Forall (fun r => length r = c) A ->
  add2 A [[b]] = Ok (map (map (fun a => fadd a b)) A).
Proof.
  intros LA Hc HA. unfold add2, elementwise2, shape0.
  assert (NA : A <> []) by (apply nonempty_length; lia).
  rewrite (shape1_rows A c NA HA). simpl length. simpl shape1.
  rewrite !bshape_one_r. cbn [bindR]. f_equal.
  rewrite stretch_long by lia. rewrite stretch_single, map2_repeat_r.
  apply map_ext_in. intros r Hr.
  rewrite Forall_forall in HA. specialize (HA r Hr).
  rewrite stretch_long by lia. rewrite stretch_single, <- HA.
  apply map2_repeat_r.
Qed.

Lemma solve_one_point (x : vec F) (y : vec F) :
  2 <= length x ->
  solve_analytically inv [x] y =
  (a_inv <- inv (map (fun a => map (fun b => fadd (fmul a b)
                                               (fmul fone lit_0_0001)) x) x) ;;
   m <- matmul a_inv (as_column x) ;;
   dot_mv m y).
Proof.
  intros Lx. assert (Nx : x <> []) by (apply nonempty_length; lia).
  unfold solve_analytically. cbv zeta. rewrite transpose_row.
  pose proof (matmul_outer x x Nx Nx) as M.
  rewrite (transpose_as_column x Nx) in M. rewrite M. cbn [bindR].
  unfold shape0, shape1. simpl length.
  replace (Nat.min 1 (length x)) with 1 by lia.
  change (multiply2_s (identity 1) lit_0_0001)
    with [[fmul fone lit_0_0001]].
  rewrite (add2_scalar _ _ (length x)).
  - cbn [bindR]. unfold outer. do 2 f_equal. rewrite map_map.
    apply map_ext. intros a. apply map_map.
  - unfold outer. now rewrite length_map.
  - exact Lx.
  - unfold outer. apply Forall_map, Forall_forall. intros a _.
    now rewrite length_map.
Qed.

Variables (X : mat F) (y : vec F) (n d : nat).
Hypothesis Hd : 1 <= d.
Hypothesis Hdn : d <= n.
Hypothesis HX : length X = n.
Hypothesis Hrows : Forall (fun x_i => length x_i = d) X.

Lemma regularized (y' : vec F) :
  (xtx <- matmul (transpose X) X ;;
   add2 xtx (multiply2_s (identity (Nat.min (shape0 X) (shape1 X)))
                         lit_0_0001)) =
  Ok (regularized_gram d X lit_0_0001 (identity d)).
Proof.
  apply (regularized_matrix X (repeat fzero n) n d Hd Hdn HX Hrows).
  apply repeat_length.
Qed.

Lemma solve_inversion_raises (e : exn) :
  inv (regularized_gram d X lit_0_0001 (identity d)) = Raise e ->
  solve_analytically inv X y = Raise e.
Proof.
  intros E. unfold solve_analytically. pose proof (regularized y) as R.
  destruct (matmul (transpose X) X) as [xtx|e']; [|discriminate R].
  cbn [bindR] in R |- *. rewrite R. cbn [bindR]. now rewrite E.
Qed.

Lemma solve_targets_mismatch (B : mat F) :
  inv (regularized_gram d X lit_0_0001 (identity d)) = Ok B ->
  square d B -> length y <> n ->
  solve_analytically inv X y = Raise ValueError.
Proof.
  intros E [LB RB] Ny. unfold solve_analytically.
  pose proof (regularized y) as R.
  destruct (matmul (transpose X) X) as [xtx|e']; [|discriminate R].
  cbn [bindR] in R |- *. rewrite R. cbn [bindR]. rewrite E. cbn [bindR].
  assert (NX : X <> []) by (apply nonempty_length; lia).
  assert (NB : B <> []) by (apply nonempty_length; lia).
  rewrite matmul_shapes.
  2:{ rewrite (shape1_rows B d NB RB). unfold shape0.
      rewrite (transpose_columns X d NX Hrows).
      now rewrite length_map, length_seq. }
  cbn [bindR]. destruct B as [|b B']; [congruence|].
  unfold product. simpl map. apply dot_mv_mismatch.
  rewrite length_map, length_seq.
  rewrite (transpose_columns X d NX Hrows).
  destruct d as [|d']; [lia|]. simpl. unfold column.
  rewrite length_map. congruence.
Qed.
End SolverEdges.

(** X12: with more than one point but fewer points than features,
    [solve_analytically] raises a shape error whatever the targets and the
    inversion routine: the identity of size n_points cannot be added to
    the n_features x n_features matrix. *)
Theorem solver_raises_with_few_points :
  forall (F : Type) (HF : Scalar F) (inv : mat F -> result (mat F))
         (X : mat F) (y : vec F) (n d : nat),
    length X = n -> Forall (fun x_i => length x_i = d) X ->
    1 < n -> n < d ->
    solve_analytically inv X y = Raise ValueError.
Proof.
  intros F HF inv X y n d. apply solve_few_points.
Qed.

Lemma solver_raises_with_few_points_witness :
  solve_analytically inv2 Ridge.X23 Ridge.y2 = Raise ValueError.
Proof.
  apply (solver_raises_with_few_points Qc exact inv2 Ridge.X23
           Ridge.y2 2 3).
  - reflexivity.
  - repeat constructor.
  - lia.
  - lia.
Defined.

(** X13: for a single point x with at least two features,
    [solve_analytically] inverts the matrix with the entries
    x_i x_j + 1 * 0.0001: the regularization is added to every entry, not
    only to the diagonal. *)
Theorem solve_analytically_one_point_matrix :
  forall (F : Type) (HF : Scalar F) (inv : mat F -> result (mat F))
         (x y : vec F),
    2 <= length x ->
    solve_analytically inv [x] y =
    (a_inv <- inv (map (fun a => map (fun b => fadd (fmul a b)
                                                 (fmul fone lit_0_0001)) x)
                       x) ;;
     m <- matmul a_inv (as_column x) ;;
     dot_mv m y).
Proof.
  intros F HF inv x y. apply solve_one_point.
Qed.

Lemma solve_analytically_one_point_matrix_witness :
  solve_analytically inv2 Ridge.X12 Ridge.y1 =
  (a_inv <- inv2 (map (fun a => map (fun b => fadd (fmul a b)
                                                (fmul fone lit_0_0001))
                                    [Ridge.q 1; Ridge.q 2])
                      [Ridge.q 1; Ridge.q 2]) ;;
   m <- matmul a_inv (as_column [Ridge.q 1; Ridge.q 2]) ;;
   dot_mv m Ridge.y1).
Proof.
  apply (solve_analytically_one_point_matrix Qc exact inv2
           [Ridge.q 1; Ridge.q 2] Ridge.y1).
  simpl. lia.
Defined.

(** X14: with at least as many points as features, [solve_analytically]
    raises what the inversion of X^T X + 0.0001 I raises (a singular
    matrix is not handled). *)
Theorem solve_analytically_inversion_raises :
  forall (F : Type) (HF : Scalar F) (inv : mat F -> result (mat F))
         (X : mat F) (y : vec F) (n d : nat) (e : exn),
    1 <= d -> d <= n ->
    length X = n -> Forall (fun x_i => length x_i = d) X ->
    inv (regularized_gram d X lit_0_0001 (identity d)) = Raise e ->
    solve_analytically inv X y = Raise e.
Proof.
  intros F HF inv X y n d e Hd Hdn HX Hrows.
  now apply (solve_inversion_raises inv X y n d).
Qed.

Lemma solve_analytically_inversion_raises_witness :
  solve_analytically (fun _ : mat Qc => Raise LinAlgError) Ridge.X32
    Ridge.y3 = Raise LinAlgError.
Proof.
  apply (solve_analytically_inversion_raises Qc exact
           (fun _ => Raise LinAlgError) Ridge.X32 Ridge.y3 3 2 LinAlgError).
  - lia.
  - lia.
  - reflexivity.
  - repeat constructor.
  - reflexivity.
Defined.

(** X15: with at least as many points as features and a successful
    inversion, [solve_analytically] raises a shape error when the number
    of targets is not the number of points. *)
Theorem solve_analytically_targets_mismatch :
  forall (F : Type) (HF : Scalar F) (inv : mat F -> result (mat F))
         (X : mat F) (y : vec F) (n d : nat) (B : mat F),
    1 <= d -> d <= n ->
    length X = n -> Forall (fun x_i => length x_i = d) X ->
    inv (regularized_gram d X lit_0_0001 (identity d)) = Ok B ->
    square d B -> length y <> n ->
    solve_analytically inv X y = Raise ValueError.
Proof.
  intros F HF inv X y n d B Hd Hdn HX Hrows.
  now apply (solve_targets_mismatch inv X y n d).
Qed.

Lemma solve_analytically_targets_mismatch_witness :
  solve_analytically inv2 Ridge.X32 Ridge.y2 = Raise ValueError.
Proof.
  eapply (solve_analytically_targets_mismatch Qc exact inv2 Ridge.X32
            Ridge.y2 3 2).
  - lia.
  - lia.
  - reflexivity.
  - repeat constructor.
  - vm_compute. reflexivity.
  - repeat constructor.
  - discriminate.
Defined.

(** X24: in exact arithmetic, for X with at least as
    many points as features (so that the identity of size
    min(n_points, n_features) is the full n_features x n_features
    identity), whenever the inversion succeeds [solve_analytically]
    returns w = (X^T X + lambda I)^-1 X^T y with lambda = 0.0001, and this
    w satisfies (X^T X + lambda I) w = X^T y. *)
Theorem solve_analytically_normal_equations :
  forall (F : Type) (HF : Scalar F) (HE : ExactRing F)
         (inv : mat F -> result (mat F)) (X : mat F) (y : vec F)
         (n d : nat) (B : mat F),
    exact_inverse inv ->
    1 <= d -> d <= n ->
    length X = n -> Forall (fun x_i => length x_i = d) X ->
    length y = n ->
    inv (regularized_gram d X lit_0_0001 (identity d)) = Ok B ->
    solve_analytically inv X y = Ok (matvec B (moment d X y)) /\
    solves_normal_equations d X y (identity d) (matvec B (moment d X y)).
Proof.
  intros F HF HE inv X y n d B Hinv Hd Hdn HX Hrows Hy EB.
  now apply (solve_analytically_exact inv Hinv X y n d Hd Hdn HX Hrows Hy).
Qed.

Lemma solve_analytically_normal_equations_witness :
  exists B : mat Qc,
    (solve_analytically inv2 Ridge.X32 Ridge.y3 =
       Ok (matvec B (moment 2 Ridge.X32 Ridge.y3)) /\
     solves_normal_equations 2 Ridge.X32 Ridge.y3 (identity 2)
       (matvec B (moment 2 Ridge.X32 Ridge.y3))) /\
    map this (matvec B (moment 2 Ridge.X32 Ridge.y3)) =
      [40000 # 200056667; 1200280000 # 600170001]%Q.
Proof.
  eexists. split.
  - apply (solve_analytically_normal_equations Qc exact exact_ring inv2
             Ridge.X32 Ridge.y3 3 2).
    + exact inv2_exact.
    + lia.
    + lia.
    + reflexivity.
    + repeat constructor.
    + reflexivity.
    + vm_compute. reflexivity.
  - vm_compute. reflexivity.
Defined.

(** ** [distance] *)

Section DistanceFacts.
Context {F : Type} `{Scalar F} `{Sqrt F} `{Blas F}.

Lemma distance_mismatch (a b : vec F) :
  length a <> length b -> length a <> 1 -> length b <> 1 ->
  distance a b = Raise ValueError.
Proof.
  intros N1 N2 N3. unfold distance, subtract, elementwise.
  now rewrite bshape_mismatch.
Qed.
End DistanceFacts.

Section DistanceBinary64.
Local Abbreviation zero := (S754_zero false).

Lemma sub_self (x : spec_float) :
  Binary64.is_finite x = true -> fsub x x = zero.
Proof.
  destruct x as [[|]|s| |s m e]; try discriminate; intros _;
    try reflexivity.
  simpl. unfold SFsub. now rewrite Z.sub_diag.
Qed.

Lemma sum_of_zeros (n : nat) : fsum (repeat zero n) = zero.
Proof.
  destruct n as [|n]; [reflexivity|]. simpl.
  induction n as [|n IH]; [reflexivity|]. exact IH.
Qed.

Lemma squares_of_differences (a : vec spec_float) :
  Finite.vector a = true ->
  map (fun x => fmul x x) (map2 fsub a a) = repeat zero (length a).
Proof.
  rewrite map2_diag, map_map.
  induction a as [|x a IH]; [reflexivity|]. intros Ha.
  apply andb_prop in Ha as [Hx Ha].
  cbn [map length repeat]. rewrite (sub_self x Hx), (IH Ha). reflexivity.
Qed.

Lemma distance_self (a : vec spec_float) :
  Finite.vector a = true -> distance a a = Ok zero.
Proof.
  intros Ha. unfold distance, subtract.
  rewrite elementwise_same by reflexivity. cbn [bindR].
  rewrite dot_same by reflexivity. cbn [bindR fdot reference_blas].
  unfold inner. rewrite (map2_diag fmul).
  now rewrite (squares_of_differences a Ha), sum_of_zeros.
Qed.
End DistanceBinary64.

(** X16: [distance] raises a shape error when its two vectors have
    different lengths and neither has length 1. *)
Theorem distance_not_broadcastable :
  forall (F : Type) (HF : Scalar F) (HS : Sqrt F) (a b : vec F),
    length a <> length b -> length a <> 1 -> length b <> 1 ->
    distance a b = Raise ValueError.
Proof.
  intros F HF HS a b. apply distance_mismatch.
Qed.

Lemma distance_not_broadcastable_witness :
  distance [Example.f 1; Example.f 2] [Example.f 1; Example.f 2; Example.f 3]
  = Raise ValueError.
Proof.
  apply (distance_not_broadcastable spec_float binary64 binary64_sqrt);
    discriminate.
Defined.

(** X17: in binary64 the distance of a vector without infinities and NaNs
    to itself is exactly +0: a model whose weights are the analytic
    solution is at distance zero from it. *)
Theorem distance_to_itself :
  forall a : vec spec_float,
    Finite.vector a = true -> distance a a = Ok (S754_zero false).
Proof.
  exact distance_self.
Qed.

Lemma distance_to_itself_witness :
  distance [Example.f 1; Example.f 2] [Example.f 1; Example.f 2] =
  Ok (S754_zero false).
Proof.
  apply (distance_to_itself [Example.f 1; Example.f 2]). reflexivity.
Defined.

(** ** The update rules in exact arithmetic *)

Section ExactUpdates.

Lemma inner_after_step (x w : vec Qc) (r lr : Qc) :
  length x = length w ->
  inner x (map2 (fun w_j x_j => fsub w_j (fmul lr (fmul (fopp x_j) r))) w x)
  = fadd (inner x w) (fmul (fmul lr r) (inner x x)).
Proof.
  revert w. induction x as [|a x IH]; intros [|b w] L; try discriminate L.
  - unfold inner. simpl. ring.
  - rewrite map2_cons, !inner_cons, IH by (now injection L).
    simpl. ring.
Qed.





End ExactUpdates.

(** X18: in exact arithmetic one update of [LinearRegression] on
    (x_i, y_i) multiplies the residual on that example by
    1 - learning_rate * (x_i . x_i):
    y_i - x_i . w' = (1 - learning_rate * (x_i . x_i)) * (y_i - x_i . w). *)
Theorem linear_update_residual :
  forall (self : LinearRegression.t Qc) (x_i : vec Qc)
         (y_i learning_rate : Qc),
    length x_i = length (LinearRegression.w self) ->
    fsub y_i
      (inner x_i
         (LinearRegression.w
            (snd (LinearRegression.update_weight x_i y_i learning_rate
                    self)))) =
    fmul (fsub fone (fmul learning_rate (inner x_i x_i)))
         (fsub y_i (inner x_i (LinearRegression.w self))).
Proof.
  intros self x_i y_i lr E. rewrite (linear_update_value self x_i y_i lr E).
  cbn [snd fdot reference_blas].
  destruct (fneb (inner x_i (LinearRegression.w self)) y_i) eqn:N.
  - cbn [LinearRegression.w].
    rewrite (inner_after_step x_i _ _ lr E). simpl. ring.
  - simpl in N. apply negb_false_iff, Qc_eq_bool_correct in N.
    rewrite N. simpl. ring.
Qed.


Lemma linear_update_residual_witness :
  fsub (Ridge.q 6)
    (inner [Ridge.q 1; Ridge.q 2]
       (LinearRegression.w
          (snd (LinearRegression.update_weight [Ridge.q 1; Ridge.q 2]
                  (Ridge.q 6) lit_0_001 ExactExample.linear)))) =
  fmul (fsub fone (fmul lit_0_001
                     (inner [Ridge.q 1; Ridge.q 2] [Ridge.q 1; Ridge.q 2])))
       (fsub (Ridge.q 6)
          (inner [Ridge.q 1; Ridge.q 2]
             (LinearRegression.w ExactExample.linear))).
Proof.
  apply (linear_update_residual ExactExample.linear [Ridge.q 1; Ridge.q 2]
           (Ridge.q 6) lit_0_001).
  reflexivity.
Defined.


(** ** An exact fit *)

Section FixedPoint.
Context {F : Type} `{Scalar F} `{Blas F}.

Lemma linear_update_fitted (self : LinearRegression.t F) (x_i : vec F)
  (y_i lr : F) :
  length x_i = length (LinearRegression.w self) ->
  fneb (fdot x_i (LinearRegression.w self)) y_i = false ->
  LinearRegression.update_weight x_i y_i lr self = (Ok tt, self).
Proof.
  intros E N. rewrite (linear_update_value self x_i y_i lr E).
  now rewrite N.
Qed.

Lemma linear_epoch_fitted (X : mat F) (y : vec F) lr
  (self : LinearRegression.t F) :
  Forall (fun ex => length (fst ex) = length (LinearRegression.w self) /\
                    fneb (fdot (fst ex) (LinearRegression.w self)) (snd ex)
                    = false) (combine X y) ->
  train_epoch X y lr self = (Ok tt, self).
Proof.
  revert y. induction X as [|x_i X IH]; intros [|y_i y] Hfit;
    try reflexivity.
  simpl combine in Hfit. inversion Hfit as [|? ? [E N] Hfit']; subst.
  rewrite train_epoch_cons.
  change (update_weight x_i y_i lr self)
    with (LinearRegression.update_weight x_i y_i lr self).
  simpl in E, N. rewrite (linear_update_fitted self x_i y_i lr E N).
  now apply IH.
Qed.
End FixedPoint.

(** X20: weights whose prediction compares equal to the target on every
    training example (the product of x_i and w that the BLAS at hand
    returns is not [!=] to y_i) are a fixed point of [train_epoch] of
    [LinearRegression], whatever the learning rate. *)
Theorem linear_exact_fit_is_fixed :
  forall (F : Type) (HF : Scalar F) (HB : Blas F) (X : mat F) (y : vec F)
         (learning_rate : F) (self : LinearRegression.t F),
    Forall (fun ex => length (fst ex) = length (LinearRegression.w self) /\
                      fneb (fdot (fst ex) (LinearRegression.w self))
                           (snd ex) = false) (combine X y) ->
    train_epoch X y learning_rate self = (Ok tt, self).
Proof.
  intros F HF HB X y lr self. apply linear_epoch_fitted.
Qed.

Lemma linear_exact_fit_is_fixed_witness :
  train_epoch Example.X22 [Example.f 3; Example.f 7] lit_0_001 Example.ones =
  (Ok tt, Example.ones).
Proof.
  apply (linear_exact_fit_is_fixed spec_float binary64 reference_blas
           Example.X22 [Example.f 3; Example.f 7] lit_0_001 Example.ones).
  repeat constructor.
Defined.

(** ** [main] on well-formed data *)

Section LoopReturns.
Context {F : Type} `{Scalar F} `{Sqrt F} `{Blas F}.

Lemma take_members {A : Type} (P : A -> Prop) (a l : list A)
  (order : list nat) :
  take a order = Ok l -> Forall P a -> Forall P l.
Proof.
  unfold take. revert l. induction order as [|i order IH]; intros l E Ha.
  - injection E as <-. constructor.
  - simpl in E. destruct (nth_error a i) as [x|] eqn:Ex; [|discriminate E].
    simpl in E.
    destruct (mapR _ order) as [l'|]; [|discriminate E].
    simpl in E. injection E as <-. constructor.
    + rewrite Forall_forall in Ha. apply Ha.
      now apply nth_error_In with (n := i).
    + now apply IH.
Qed.

Section AnyModel.
Context {S : Type} `{RegressionModel F S}.
Variable d : nat.
Variable Inv : S -> Prop.

Hypothesis epoch_returns :
  forall (X : mat F) (y : vec F) lr (s : S),
    Inv s -> Forall (fun x_i => length x_i = d) X ->
    exists s', train_epoch X y lr s = (Ok tt, s') /\ Inv s'.
Hypothesis evaluate_returns :
  forall (X : mat F) (y : vec F) (s : S),
    Inv s -> Forall (fun x_i => length x_i = d) X -> length X = length y ->
    exists loss, evaluate X y s = (Ok loss, s).

Lemma training_loop_returns (orders : list (list nat)) (test_X : mat F)
  (test_y : vec F) lr :
  Forall (fun x_i => length x_i = d) test_X ->
  length test_X = length test_y ->
  forall (train_X : mat F) (train_y : vec F) (s : S),
    Inv s -> Forall (fun x_i => length x_i = d) train_X ->
    length train_X = length train_y ->
    Forall (fun o => Permutation o (seq 0 (length train_X))) orders ->
    exists losses s',
      training_loop orders train_X train_y test_X test_y lr s =
        (Ok losses, s') /\ Inv s'.
Proof.
  intros Rt Et. induction orders as [|o orders IH];
    intros train_X train_y s Hs RX E Ho.
  - exists ([], []), s. split; [reflexivity|exact Hs].
  - inversion Ho as [|? ? Po Ho']; subst.
    destruct (shuffle_pairs train_X train_y o E Po)
      as (X' & y' & TX & Ty & LX & Ly & _).
    assert (E' : length X' = length y') by congruence.
    assert (RX' : Forall (fun x_i => length x_i = d) X')
      by exact (take_members _ _ _ _ TX RX).
    destruct (epoch_returns X' y' lr s Hs RX') as (s1 & T & Hs1).
    destruct (evaluate_returns X' y' s1 Hs1 RX' E') as (l1 & E1).
    destruct (evaluate_returns test_X test_y s1 Hs1 Rt Et) as (l2 & E2).
    destruct (IH X' y' s1 Hs1 RX' E') as (losses & s' & R & Hs').
    { now rewrite LX. }
    exists (l1 :: fst losses, l2 :: snd losses), s'. split; [|exact Hs'].
    rewrite training_loop_cons.
    unfold bindM at 1. unfold lift at 1. rewrite TX.
    unfold bindM at 1. unfold lift at 1. rewrite Ty.
    unfold bindM at 1. rewrite T.
    unfold bindM at 1. rewrite E1.
    unfold bindM at 1. rewrite E2.
    unfold bindM at 1. rewrite R. reflexivity.
Qed.
End AnyModel.

Lemma linear_evaluate_state (X : mat F) (y : vec F)
  (self : LinearRegression.t F) :
  snd (evaluate X y self) = self.
Proof.
  unfold evaluate, bindM, lift, ret.
  change (predict X self) with (LinearRegression.predict X self).
  unfold LinearRegression.predict.
  destruct (dot_mv X (LinearRegression.w self)) as [yhat|]; [|reflexivity].
  destruct (subtract yhat y) as [err|]; [|reflexivity].
  now destruct (dot err err).
Qed.

Lemma distance_returns (a b : vec F) :
  length a = length b -> exists v, distance a b = Ok v.
Proof.
  intros E. unfold distance, subtract. rewrite (elementwise_same _ _ _ E).
  cbn [bindR]. rewrite dot_same by reflexivity. cbn [bindR]. eauto.
Qed.

Lemma linear_training_loop_cons (analytic_solution : vec F) (o : list nat)
  (orders : list (list nat)) (train_X : mat F) (train_y : vec F)
  (test_X : mat F) (test_y : vec F) lr (s : LinearRegression.t F) :
  linear_training_loop analytic_solution (o :: orders) train_X train_y
    test_X test_y lr s =
  (train_X' <~ lift (take train_X o) ;;
   train_y' <~ lift (take train_y o) ;;
   train_epoch train_X' train_y' lr ;;;
   train_loss <~ evaluate train_X' train_y' ;;
   test_loss <~ evaluate test_X test_y ;;
   model <~ get ;;
   dist <~ lift (distance analytic_solution (LinearRegression.w model)) ;;
   rest <~ linear_training_loop analytic_solution orders train_X' train_y'
             test_X test_y lr ;;
   ret (train_loss :: fst (fst rest), test_loss :: snd (fst rest),
        dist :: snd rest)) s.
Proof. reflexivity. Qed.

(** Recording the distance changes neither the losses nor the model nor
    what is raised. *)
Lemma linear_training_loop_tracks (analytic_solution : vec F)
  (orders : list (list nat)) (test_X : mat F) (test_y : vec F) lr :
  forall (train_X : mat F) (train_y : vec F) (s : LinearRegression.t F),
    length analytic_solution = length (LinearRegression.w s) ->
    match training_loop orders train_X train_y test_X test_y lr s with
    | (Ok losses, s') =>
        exists dists,
          linear_training_loop analytic_solution orders train_X train_y
            test_X test_y lr s = (Ok (fst losses, snd losses, dists), s') /\
          length dists = length orders
    | (Raise e, s') =>
        linear_training_loop analytic_solution orders train_X train_y
          test_X test_y lr s = (Raise e, s')
    end.
Proof.
  induction orders as [|o orders IH]; intros train_X train_y s L.
  - exists []. split; reflexivity.
  - rewrite training_loop_cons, linear_training_loop_cons.
    unfold bindM, lift, get, ret.
    destruct (take train_X o) as [X'|e]; [|reflexivity].
    destruct (take train_y o) as [y'|e]; [|reflexivity].
    cbn beta iota.
    pose proof (linear_epoch_dimension X' y' lr s) as D.
    destruct (train_epoch X' y' lr s) as [[[]|e] s1]; [|reflexivity].
    simpl in D. cbn beta iota.
    pose proof (linear_evaluate_state X' y' s1) as V1.
    destruct (evaluate X' y' s1) as [[l1|e] s2]; simpl in V1; subst s2;
      [|reflexivity].
    cbn beta iota.
    pose proof (linear_evaluate_state test_X test_y s1) as V2.
    destruct (evaluate test_X test_y s1) as [[l2|e] s2]; simpl in V2;
      subst s2; [|reflexivity].
    cbn beta iota.
    destruct (distance_returns analytic_solution (LinearRegression.w s1))
      as (v & Dv); [congruence|].
    rewrite Dv. cbn beta iota.
    specialize (IH X' y' s1 ltac:(congruence)).
    destruct (training_loop orders X' y' test_X test_y lr s1)
      as [[losses|e] s'].
    + destruct IH as (dists & R & Ld). rewrite R.
      exists (v :: dists). split; [reflexivity|]. simpl. now rewrite Ld.
    + now rewrite IH.
Qed.

Context `{!BlasLaws F}.

Lemma linear_evaluate_returns (X : mat F) (y : vec F)
  (self : LinearRegression.t F) :
  Forall (fun x_i => length x_i = length (LinearRegression.w self)) X ->
  length X = length y ->
  exists loss, evaluate X y self = (Ok loss, self).
Proof.
  intros RX E.
  assert (Ev : evaluates_to X y self
                 (rmse (gemv X (LinearRegression.w self)) y)).
  { apply evaluate_from_predict; [|now rewrite gemv_length].
    exact (linear_predict_rows self X RX). }
  destruct Ev as [Ev _]. eauto.
Qed.

Lemma neural_evaluate_returns (hidden n_features : nat) (X : mat F)
  (y : vec F) (self : NeuralRegression.t F) :
  NeuralRegression.shaped hidden n_features self ->
  Forall (fun x_i => length x_i = n_features) X ->
  length X = length y ->
  exists loss, evaluate X y self = (Ok loss, self).
Proof.
  intros Hs RX E.
  destruct (neural_predict_returns hidden n_features self X Hs RX)
    as (yhat & P & Ly).
  assert (Ev : evaluates_to X y self (rmse yhat y)).
  { apply evaluate_from_predict; [exact P|congruence]. }
  destruct Ev as [Ev _]. eauto.
Qed.

Lemma linear_loop_returns (d : nat) (orders : list (list nat))
  (test_X : mat F) (test_y : vec F) lr (train_X : mat F) (train_y : vec F)
  (s : LinearRegression.t F) :
  Forall (fun x_i => length x_i = d) test_X ->
  length test_X = length test_y ->
  length (LinearRegression.w s) = d ->
  Forall (fun x_i => length x_i = d) train_X ->
  length train_X = length train_y ->
  Forall (fun o => Permutation o (seq 0 (length train_X))) orders ->
  exists losses s',
    training_loop orders train_X train_y test_X test_y lr s =
      (Ok losses, s') /\ length (LinearRegression.w s') = d.
Proof.
  intros Rt Et Hs RX E Ho.
  apply (training_loop_returns d
           (fun s => length (LinearRegression.w s) = d)); auto.
  - intros X y lr' s0 Hs0 HX.
    exists (snd (train_epoch X y lr' s0)). split.
    + rewrite (surjective_pairing (train_epoch X y lr' s0)) at 1.
      f_equal. apply linear_epoch_returns.
      eapply Forall_impl; [|exact HX]. simpl. intros; congruence.
    + now rewrite linear_epoch_dimension.
  - intros X y s0 Hs0 HX E0. apply linear_evaluate_returns; [|exact E0].
    eapply Forall_impl; [|exact HX]. simpl. intros; congruence.
Qed.

Lemma neural_loop_returns (hidden d : nat) (orders : list (list nat))
  (test_X : mat F) (test_y : vec F) lr (train_X : mat F) (train_y : vec F)
  (s : NeuralRegression.t F) :
  Forall (fun x_i => length x_i = d) test_X ->
  length test_X = length test_y ->
  NeuralRegression.shaped hidden d s ->
  Forall (fun x_i => length x_i = d) train_X ->
  length train_X = length train_y ->
  Forall (fun o => Permutation o (seq 0 (length train_X))) orders ->
  exists losses s',
    training_loop orders train_X train_y test_X test_y lr s =
      (Ok losses, s') /\ NeuralRegression.shaped hidden d s'.
Proof.
  intros Rt Et Hs RX E Ho.
  apply (training_loop_returns d (NeuralRegression.shaped hidden d)); auto.
  - intros X y lr' s0 Hs0 HX.
    destruct (neural_epoch_shaped hidden d X y lr' s0 Hs0) as [I1 I2].
    exists (snd (train_epoch X y lr' s0)). split; [|exact I1].
    rewrite (surjective_pairing (train_epoch X y lr' s0)) at 1.
    f_equal. now apply I2.
  - intros X y s0 Hs0 HX E0.
    now apply (neural_evaluate_returns hidden d).
Qed.
End LoopReturns.

Section PlotFacts.
Context {F : Type}.

(** [epochs[-1]] of the epochs 1, ..., n: there is none when n = 0. *)
Lemma item_last_arange (n : nat) :
  item_last (arange_from_1 n) =
  match n with
  | 0 => Raise IndexError
  | S _ => Ok n
  end.
Proof.
  destruct n as [|n]; [reflexivity|].
  unfold item_last, arange_from_1. rewrite seq_S, rev_app_distr.
  reflexivity.
Qed.

Lemma plt_plot_returns (x : list nat) (y : vec F) :
  length x = length y -> plt_plot x y = Ok (x, y).
Proof. intros E. unfold plt_plot. now rewrite E, Nat.eqb_refl. Qed.

Lemma plot_returns (n : nat) (train_loss test_loss : vec F) :
  length train_loss = n -> length test_loss = n ->
  plot (arange_from_1 n) train_loss test_loss =
  match n with
  | 0 => Raise IndexError
  | S _ =>
      Ok {| xticks := arange_by_10 (n + 1);
            curves := [(arange_from_1 n, train_loss);
                       (arange_from_1 n, test_loss)] |}
  end.
Proof.
  intros L1 L2. unfold plot. rewrite item_last_arange.
  destruct n as [|n]; [reflexivity|]. cbn [bindR].
  rewrite !plt_plot_returns
    by (unfold arange_from_1; rewrite length_seq; congruence).
  reflexivity.
Qed.

Lemma plot_dist_returns (n : nat) (dist : vec F) :
  length dist = n ->
  plot_dist_from_analytic (arange_from_1 n) dist =
  match n with
  | 0 => Raise IndexError
  | S _ =>
      Ok {| xticks := arange_by_10 (n + 1);
            curves := [(arange_from_1 n, dist)] |}
  end.
Proof.
  intros L. unfold plot_dist_from_analytic. rewrite item_last_arange.
  destruct n as [|n]; [reflexivity|]. cbn [bindR].
  rewrite plt_plot_returns
    by (unfold arange_from_1; rewrite length_seq; congruence).
  reflexivity.
Qed.
End PlotFacts.

Section MainReturns.
Context {F : Type} `{Scalar F} `{Sqrt F}.

Lemma solve_returns (inv : mat F -> result (mat F)) (X : mat F) (y : vec F)
  (n d : nat) (B : mat F) :
  1 <= d -> d <= n ->
  length X = n -> Forall (fun x_i => length x_i = d) X -> length y = n ->
  inv (regularized_gram d X lit_0_0001 (identity d)) = Ok B ->
  square d B ->
  exists w, solve_analytically inv X y = Ok w /\ length w = d.
Proof.
  intros Hd Hdn HX Hrows Hy E [LB RB]. unfold solve_analytically.
  pose proof (regularized X n d Hd Hdn HX Hrows y) as R.
  destruct (matmul (transpose X) X) as [xtx|e']; [|discriminate R].
  cbn [bindR] in R |- *. rewrite R. cbn [bindR]. rewrite E. cbn [bindR].
  assert (NX : X <> []) by (apply nonempty_length; lia).
  assert (NB : B <> []) by (apply nonempty_length; lia).
  assert (S1 : shape1 (transpose X) = n).
  { rewrite (transpose_columns X d NX Hrows).
    destruct d as [|d']; [lia|]. simpl. unfold column.
    now rewrite length_map. }
  rewrite matmul_shapes.
  2:{ rewrite (shape1_rows B d NB RB). unfold shape0.
      rewrite (transpose_columns X d NX Hrows).
      now rewrite length_map, length_seq. }
  cbn [bindR]. rewrite dot_mv_rows.
  2:{ eapply Forall_impl; [|apply product_rows].
      simpl. intros r Hr. now rewrite Hr, S1. }
  eexists. split; [reflexivity|].
  rewrite gemv_length. unfold product. now rewrite !length_map.
Qed.
End MainReturns.

(** X21: recording the distance to the analytic solution is transparent:
    when the analytic solution has as many entries as the model has
    weights, the loop of the linear model returns the losses and leaves
    the model exactly as the plain training loop does, with one distance
    per epoch, and raises whatever the plain loop raises. *)
Theorem distance_tracking_is_transparent :
  forall (F : Type) (HF : Scalar F) (HS : Sqrt F)
         (analytic_solution : vec F) (orders : list (list nat))
         (train_X : mat F) (train_y : vec F) (test_X : mat F)
         (test_y : vec F) (learning_rate : F) (s : LinearRegression.t F),
    length analytic_solution = length (LinearRegression.w s) ->
    match training_loop orders train_X train_y test_X test_y
            learning_rate s with
    | (Ok losses, s') =>
        exists dists,
          linear_training_loop analytic_solution orders train_X train_y
            test_X test_y learning_rate s =
            (Ok (fst losses, snd losses, dists), s') /\
          length dists = length orders
    | (Raise e, s') =>
        linear_training_loop analytic_solution orders train_X train_y
          test_X test_y learning_rate s = (Raise e, s')
    end.
Proof.
  intros F HF HS analytic_solution orders train_X train_y test_X test_y lr s.
  apply linear_training_loop_tracks.
Qed.

Lemma distance_tracking_is_transparent_witness :
  match training_loop [[1; 0]] Example.X22 Example.y2 Example.X22
          Example.y2 lit_0_001 Example.linear with
  | (Ok losses, s') =>
      exists dists,
        linear_training_loop [Example.f 1; Example.f 1] [[1; 0]]
          Example.X22 Example.y2 Example.X22 Example.y2 lit_0_001
          Example.linear = (Ok (fst losses, snd losses, dists), s') /\
        length dists = 1
  | (Raise e, s') =>
      linear_training_loop [Example.f 1; Example.f 1] [[1; 0]]
        Example.X22 Example.y2 Example.X22 Example.y2 lit_0_001
        Example.linear = (Raise e, s')
  end.
Proof.
  apply (distance_tracking_is_transparent spec_float binary64 binary64_sqrt
           [Example.f 1; Example.f 1] [[1; 0]] Example.X22 Example.y2
           Example.X22 Example.y2 lit_0_001 Example.linear).
  reflexivity.
Defined.

(** X22: [main] for [linear_regression] on well-formed data: with at
    least as many training points as features, one target per row, test
    rows of the same dimension, permutations drawn for the epochs and an
    inversion that succeeds (returning a matrix of the shape of its
    argument), the training raises nothing, and with at least one epoch
    [main] hands to the two plots the epochs 1, ..., N against one
    training loss, one test loss and one distance per epoch; with no
    epoch [main] raises IndexError, in [plot], which reads the last
    epoch. *)
Theorem main_linear_regression_returns :
  forall (F : Type) (HF : Scalar F) (HS : Sqrt F)
         (inv : mat F -> result (mat F)) (orders : list (list nat))
         (train_X : mat F) (train_y : vec F) (test_X : mat F)
         (test_y : vec F) (learning_rate : F) (n d : nat) (B : mat F),
    keeps_shape inv ->
    1 <= d -> d <= n ->
    regression_data n d train_X train_y test_X test_y ->
    Forall (fun o => Permutation o (seq 0 n)) orders ->
    inv (regularized_gram d train_X lit_0_0001 (identity d)) = Ok B ->
    exists train_losses test_losses dists,
      length train_losses = length orders /\
      length test_losses = length orders /\
      length dists = length orders /\
      main_linear_regression inv orders train_X train_y test_X test_y
        learning_rate =
      match orders with
      | [] => Raise IndexError
      | _ :: _ =>
          let epochs := arange_from_1 (length orders) in
          let ticks := arange_by_10 (length orders + 1) in
          Ok ({| xticks := ticks;
                 curves := [(epochs, train_losses); (epochs, test_losses)] |},
              {| xticks := ticks; curves := [(epochs, dists)] |})
      end.
Proof.
  intros F HF HS inv orders train_X train_y test_X test_y lr n d B
         Hinv Hd Hdn (LX & RX & Ly & Rt & Lt) Ho EB.
  assert (SB : square d B).
  { eapply (Hinv d); [|exact EB]. unfold square, regularized_gram. split.
    - now rewrite length_map, length_seq.
    - apply Forall_map, Forall_forall. intros i _.
      now rewrite length_map, length_seq. }
  destruct (solve_returns inv train_X train_y n d B Hd Hdn LX RX Ly EB SB)
    as (w & Sw & Lw).
  unfold main_linear_regression. rewrite Sw. cbn [bindR].
  assert (NX : train_X <> []) by (apply nonempty_length; lia).
  rewrite (shape1_rows train_X d NX RX).
  set (model := LinearRegression.init d).
  assert (Lm : length (LinearRegression.w model) = d) by apply repeat_length.
  destruct (linear_loop_returns d orders test_X test_y lr train_X train_y
              model Rt (eq_sym Lt) Lm RX) as (losses & s' & R & _).
  { congruence. }
  { now rewrite LX. }
  pose proof (linear_training_loop_tracks w orders test_X test_y lr
                train_X train_y model ltac:(congruence)) as T.
  rewrite R in T. destruct T as (dists & T & Ld). rewrite T.
  destruct (training_loop_losses orders test_X test_y lr train_X train_y
              model s' losses R) as [L1 L2].
  exists (fst losses), (snd losses), dists.
  repeat split; [exact L1|exact L2|exact Ld|].
  cbn [fst snd bindR].
  rewrite (plot_returns (length orders)) by assumption.
  rewrite (plot_dist_returns (length orders)) by assumption.
  destruct orders; reflexivity.
Qed.

Lemma adjugate_inverse_keeps_shape (F : Type) (HF : Scalar F) :
  keeps_shape (adjugate_inverse (F := F)).
Proof.
  intros n A B [L R] E.
  destruct A as [|[|a [|b [|? ?]]] [|[|c [|d [|? ?]]] [|? ?]]];
    try discriminate E; simpl in L; subst n; simpl in E.
  - destruct (fneb a fzero); [|discriminate E].
    injection E as <-. repeat constructor.
  - destruct (fneb (fsub (fmul a d) (fmul b c)) fzero); [|discriminate E].
    injection E as <-. repeat constructor.
Qed.

Lemma main_linear_regression_returns_witness :
  (exists train_losses test_losses dists : list spec_float,
     length train_losses = 2 /\ length test_losses = 2 /\
     length dists = 2 /\
     main_linear_regression adjugate_inverse [[1; 0]; [0; 1]] Example.X22
       Example.y2 Example.X22 Example.y2 lit_0_001 =
     Ok ({| xticks := [0];
            curves := [([1; 2], train_losses); ([1; 2], test_losses)] |},
         {| xticks := [0]; curves := [([1; 2], dists)] |})) /\
  main_linear_regression adjugate_inverse [] Example.X22 Example.y2
    Example.X22 Example.y2 lit_0_001 = Raise IndexError.
Proof.
  split.
  - eapply (main_linear_regression_returns spec_float binary64
              binary64_sqrt adjugate_inverse [[1; 0]; [0; 1]] Example.X22
              Example.y2 Example.X22 Example.y2 lit_0_001 2 2).
    + apply adjugate_inverse_keeps_shape.
    + lia.
    + lia.
    + repeat split; repeat constructor.
    + repeat constructor.
    + vm_compute. reflexivity.
  - edestruct (main_linear_regression_returns spec_float binary64
                 binary64_sqrt adjugate_inverse [] Example.X22
                 Example.y2 Example.X22 Example.y2 lit_0_001 2 2)
      as (a & b & c & _ & _ & _ & M).
    + apply adjugate_inverse_keeps_shape.
    + lia.
    + lia.
    + repeat split; repeat constructor.
    + constructor.
    + vm_compute. reflexivity.
    + exact M.
Defined.

(** X23: [main] for [nn] on well-formed data: with draws of the shapes
    (hidden_size, n_feats) and (1, hidden_size), at least one training
    row, one target per row, test rows of the same dimension and
    permutations drawn for the epochs, the training raises nothing for
    any BLAS, and with at least one epoch [main] hands to [plot] the
    epochs 1, ..., N against one training loss and one test loss per
    epoch; with no epoch [main] raises IndexError, in [plot], which reads
    the last epoch. *)
Theorem main_nn_returns :
  forall (F : Type) (HF : Scalar F) (HS : Sqrt F) (HB : Blas F)
         (HL : BlasLaws F) (w1_0 w2_0 : mat F)
         (hidden_size : nat) (orders : list (list nat)) (train_X : mat F)
         (train_y : vec F) (test_X : mat F) (test_y : vec F)
         (learning_rate : F) (n d : nat),
    1 <= n ->
    length w1_0 = hidden_size -> Forall (fun r => length r = d) w1_0 ->
    length w2_0 = 1 -> Forall (fun r => length r = hidden_size) w2_0 ->
    regression_data n d train_X train_y test_X test_y ->
    Forall (fun o => Permutation o (seq 0 n)) orders ->
    exists train_losses test_losses,
      length train_losses = length orders /\
      length test_losses = length orders /\
      main_nn w1_0 w2_0 hidden_size orders train_X train_y test_X test_y
        learning_rate =
      match orders with
      | [] => Raise IndexError
      | _ :: _ =>
          let epochs := arange_from_1 (length orders) in
          Ok {| xticks := arange_by_10 (length orders + 1);
                curves := [(epochs, train_losses); (epochs, test_losses)] |}
      end.
Proof.
  intros F HF HS HB HL w1_0 w2_0 hidden orders train_X train_y test_X
         test_y lr n d Hn L1 R1 L2 R2 (LX & RX & Ly & Rt & Lt) Ho.
  unfold main_nn.
  assert (NX : train_X <> []) by (apply nonempty_length; lia).
  rewrite (shape1_rows train_X d NX RX).
  set (model := NeuralRegression.init d hidden w1_0 w2_0).
  assert (Hs : NeuralRegression.shaped hidden d model).
  { unfold model, NeuralRegression.init, NeuralRegression.shaped,
      NeuralRegression.w1, NeuralRegression.w2. simpl.
    unfold zeros. now rewrite !repeat_length. }
  destruct (neural_loop_returns hidden d orders test_X test_y lr train_X
              train_y model Rt (eq_sym Lt) Hs RX)
    as (losses & s' & R & _).
  { congruence. }
  { now rewrite LX. }
  rewrite R.
  destruct (training_loop_losses orders test_X test_y lr train_X train_y
              model s' losses R) as [T1 T2].
  exists (fst losses), (snd losses).
  repeat split; [exact T1|exact T2|].
  cbn [fst snd bindR].
  rewrite (plot_returns (length orders)) by assumption.
  destruct orders; reflexivity.
Qed.

Lemma main_nn_returns_witness :
  (exists train_losses test_losses : list spec_float,
     length train_losses = 2 /\ length test_losses = 2 /\
     main_nn [[Overflow.pow2 (-3)]] [[Overflow.pow2 (-3)]] 1
       [[1; 0]; [0; 1]] Example.X21 Example.y2 Example.X21 Example.y2
       lit_0_001 =
     Ok {| xticks := [0];
           curves := [([1; 2], train_losses); ([1; 2], test_losses)] |}) /\
  main_nn [[Overflow.pow2 (-3)]] [[Overflow.pow2 (-3)]] 1 []
    Example.X21 Example.y2 Example.X21 Example.y2 lit_0_001 =
    Raise IndexError.
Proof.
  split.
  - apply (main_nn_returns spec_float binary64 binary64_sqrt reference_blas
             reference_blas_laws
             [[Overflow.pow2 (-3)]] [[Overflow.pow2 (-3)]] 1
             [[1; 0]; [0; 1]] Example.X21 Example.y2 Example.X21 Example.y2
             lit_0_001 2 1).
    + lia.
    + reflexivity.
    + repeat constructor.
    + reflexivity.
    + repeat constructor.
    + repeat split; repeat constructor.
    + repeat constructor.
  - edestruct (main_nn_returns spec_float binary64 binary64_sqrt
                 reference_blas reference_blas_laws
                 [[Overflow.pow2 (-3)]] [[Overflow.pow2 (-3)]] 1
                 [] Example.X21 Example.y2 Example.X21 Example.y2
                 lit_0_001 2 1) as (a & b & _ & _ & M).
    + lia.
    + reflexivity.
    + repeat constructor.
    + reflexivity.
    + repeat constructor.
    + repeat split; repeat constructor.
    + constructor.
    + exact M.
Defined.
